(** * Heart-rate dashboard: a shallow embedding of [main.py]

    The development follows the source file top to bottom: the
    [measurements] table and [save_heart_rate], the stand-in [BleakClient],
    [ConnectionManager.broadcast], [get_history], the notification handler
    and the two session commands [connect_ble] / [disconnect_ble].

    Python values are modelled as follows.
    - a [bytearray] is a [list byte]; indexing out of range raises
      [IndexError], [struct.unpack_from] on a short buffer raises
      [struct.error];
    - Python [int]s are [Z];
    - the module globals ([current_client], [current_hr], the manager's
      [active_connections]) and the database table live in one [state]
      record that every function threads explicitly;
    - [BleakClient] objects are mutable and reachable both through the
      global and through [self], so they live in a heap ([list BleakClient],
      the index being the object identity);
    - everything observable (log records, socket sends, adapter calls,
      inserts) is appended to a [trace], in program order. *)

From Stdlib Require Import ZArith QArith Qround Qabs Lia Lqa List Bool.
From Stdlib Require Import Strings.String Strings.Ascii Strings.Byte.
From Stdlib Require Import Sorting.Sorted Sorting.Permutation Structures.OrdersEx.
From stdpp Require Import base option list.
Import ListNotations.

Local Open Scope string_scope.
Local Open Scope Z_scope.

(** ** Python exceptions and results *)

Inductive exn : Type :=
| IndexError                      (* sequence index out of range *)
| StructError                     (* struct.error: buffer too short *)
| AttributeError                  (* attribute access on None *)
| OverflowError                   (* sqlite3: bound int outside 64 bits *)
| Exception (msg : string).       (* anything the collaborators raise *)

Inductive result (A : Type) : Type :=
| Ok (a : A)
| Raise (e : exn).
Arguments Ok {A} a.
Arguments Raise {A} e.

(** ** Heart Rate Measurement payload (handler lines 210-216) *)

Module Payload.

(** An element of a bytearray is an [int] in [range(256)]. *)
Definition int_of_byte (b : byte) : Z := Z.of_N (Byte.to_N b).

(** [data[i]]: [IndexError] past the end. *)
Definition getitem (data : list byte) (i : nat) : result Z :=
  match nth_error data i with
  | Some b => Ok (int_of_byte b)
  | None => Raise IndexError
  end.

(** [struct.unpack_from("<H", data, offset)[0]]: two bytes, little
    endian, unsigned; [struct.error] unless two bytes are available from
    [offset]. *)
Definition unpack_from_H (data : list byte) (offset : nat) : result Z :=
  match nth_error data offset, nth_error data (S offset) with
  | Some lo, Some hi =>
      Ok (Z.lor (int_of_byte lo) (Z.shiftl (int_of_byte hi) 8))
  | _, _ => Raise StructError
  end.

(** The decoding prefix of [heart_rate_notification_handler]:
<<
    flag = data[0]
    hr_format = flag & 0x01
    if hr_format == 0: hr_val = data[1]
    else:              hr_val = struct.unpack_from("<H", data, 1)[0]
>> *)
Definition decode (data : list byte) : result Z :=
  match getitem data 0 with
  | Raise e => Raise e
  | Ok flag =>
      let hr_format := Z.land flag 1 in
      if hr_format =? 0 then getitem data 1 else unpack_from_H data 1
  end.

(** Bit 0 of the flag byte, when there is one. *)
Definition flag_bit0 (data : list byte) : option bool :=
  match data with
  | [] => None
  | flag :: _ => Some (Z.testbit (int_of_byte flag) 0)
  end.

(** The payload is too short for the width its flag selects. *)
Definition underlength (data : list byte) : Prop :=
  match flag_bit0 data with
  | None => True
  | Some false => (length data < 2)%nat
  | Some true => (length data < 3)%nat
  end.

End Payload.

(** ** Data model *)

(** Identity of a viewer's socket object and of a [BleakClient] object. *)
Abbreviation WebSocket := nat (only parsing).
Abbreviation client_id := nat (only parsing).

(** Heart Rate Measurement UUID *)
Definition HR_UUID : string := "00002a37-0000-1000-8000-00805f9b34fb".

(** The only callable ever registered with [start_notify]. *)
Inductive callback : Type := heart_rate_handler.

(** [class BleakClient]: [address], [is_connected], [_notify_callbacks]. *)
Record BleakClient : Type := mkClient {
  address : string;
  is_connected : bool;
  notify_callbacks : list (string * callback)
}.

(** A row of [measurements(id, timestamp, value, device_address)]. The
    timestamp is the text SQLite stores, [YYYY-MM-DD HH:MM:SS]. *)
Record measurement : Type := mkRow {
  row_id : Z;
  timestamp : string;
  value : Z;
  device_address : string
}.

(** The JSON objects sent to viewers, by their ["type"]. *)
Inductive message : Type :=
| Msg_heart_rate (hr_val : Z)      (* {"type": "heart_rate", "value": hr_val} *)
| Msg_status (text : string)       (* {"type": "status", "message": text} *)
| Msg_error (text : string).       (* {"type": "error", "message": text} *)

(** The calls to [logger]. *)
Inductive log_record : Type :=
| Info_heart_rate (hr_val : Z)     (* logger.info(f"Heart Rate: {hr_val}") *)
| Error_database (e : exn)         (* logger.error(f"Database error: {e}") *)
| Error_broadcast (e : exn)        (* logger.error(f"Error broadcasting message: {e}") *)
| Error_connection (e : exn).      (* logger.error(f"Connection error: {e}") *)

(** What the program does, in program order. *)
Inductive action : Type :=
| ALog (r : log_record)
| ASetHr (hr_val : Z)                       (* current_hr = hr_val *)
| AInsert (v : Z) (addr : string)           (* the INSERT is attempted *)
| AEmit (m : message)                       (* manager.broadcast(m) is entered *)
| ASend (ws : WebSocket) (m : message)      (* connection.send_json(m) is attempted *)
| ABleConnect (c : client_id)               (* c.connect() is called *)
| ABleDisconnect (c : client_id)            (* c.disconnect() is called *)
| AStartNotify (c : client_id).             (* c.start_notify(HR_UUID, handler) is called *)

(** The module globals, the table and the trace. *)
Record state : Type := mkState {
  clients : list BleakClient;
  current_client : option client_id;
  current_hr : Z;
  active_connections : list WebSocket;
  measurements : list measurement;
  trace : list action
}.

(** What the collaborators do during one call: which sends, inserts and
    adapter calls raise, the value of SQLite's [CURRENT_TIMESTAMP] and the
    byte [random.randint(60, 100)] gives the stand-in client. The stand-in
    [BleakClient] of the source never raises: it is the environment whose
    three adapter fields are constantly [None]. *)
Record env : Type := mkEnv {
  send_json_raises : WebSocket -> option exn;
  insert_raises : option exn;
  connect_raises : string -> option exn;
  start_notify_raises : string -> option exn;
  disconnect_raises : string -> option exn;
  CURRENT_TIMESTAMP : string;
  randint : byte
}.

(** [str(e)] *)
Definition str (e : exn) : string :=
  match e with
  | IndexError => "bytearray index out of range"
  | StructError => "unpack_from requires a buffer of at least 3 bytes"
  | AttributeError => "'NoneType' object has no attribute 'start_notify'"
  | OverflowError => "Python int too large to convert to SQLite INTEGER"
  | Exception msg => msg
  end.

(** ** A state and exception monad

    A raised exception keeps the mutations made so far, as in Python. *)

Definition M (A : Type) : Type := state -> result A * state.

Definition ret {A} (a : A) : M A := fun s => (Ok a, s).

Definition raise {A} (e : exn) : M A := fun s => (Raise e, s).

Definition bind {A B} (m : M A) (k : A -> M B) : M B :=
  fun s => match m s with
           | (Ok a, s') => k a s'
           | (Raise e, s') => (Raise e, s')
           end.

(** [try: body  except Exception as e: handler e] *)
Definition try_except {A} (body : M A) (handler : exn -> M A) : M A :=
  fun s => match body s with
           | (Ok a, s') => (Ok a, s')
           | (Raise e, s') => handler e s'
           end.

Definition lift {A} (r : result A) : M A := fun s => (r, s).

Definition gets {A} (f : state -> A) : M A := fun s => (Ok (f s), s).

Definition modify (f : state -> state) : M unit := fun s => (Ok tt, f s).

Declare Scope py_scope.
Delimit Scope py_scope with py.
Notation "x <- m ;; k" := (bind m (fun x => k))
  (at level 100, m at next level, right associativity) : py_scope.
Notation "m ;; k" := (bind m (fun _ => k))
  (at level 100, right associativity) : py_scope.
Local Open Scope py_scope.

Definition set_clients (l : list BleakClient) (s : state) : state :=
  mkState l (current_client s) (current_hr s) (active_connections s)
          (measurements s) (trace s).

Definition set_current_client (c : option client_id) (s : state) : state :=
  mkState (clients s) c (current_hr s) (active_connections s)
          (measurements s) (trace s).

Definition set_current_hr (v : Z) (s : state) : state :=
  mkState (clients s) (current_client s) v (active_connections s)
          (measurements s) (trace s).

Definition set_measurements (l : list measurement) (s : state) : state :=
  mkState (clients s) (current_client s) (current_hr s) (active_connections s)
          l (trace s).

Definition record (a : action) (s : state) : state :=
  mkState (clients s) (current_client s) (current_hr s) (active_connections s)
          (measurements s) (trace s ++ [a]).

Definition emit (a : action) : M unit := modify (record a).

(** The object behind a reference. References are only ever made by
    [BleakClient_new], so the lookup succeeds in every reachable state. *)
Definition deref (c : client_id) : M BleakClient :=
  fun s => match clients s !! c with
           | Some cl => (Ok cl, s)
           | None => (Raise AttributeError, s)
           end.

Definition update_client (c : client_id) (f : BleakClient -> BleakClient) : M unit :=
  modify (fun s => set_clients (alter f c (clients s)) s).

(** ** The table: [save_heart_rate] (lines 32-40) *)

(** [AUTOINCREMENT]: one more than the largest id so far. *)
Definition next_row_id (rows : list measurement) : Z :=
  1 + fold_right Z.max 0 (map row_id rows).

(** [INSERT INTO measurements (value, device_address) VALUES (?, ?)]:
    the id and the timestamp take their column defaults. *)
Definition insert_row (now : string) (v : Z) (addr : string)
    (rows : list measurement) : list measurement :=
  rows ++ [mkRow (next_row_id rows) now v addr].

Definition save_heart_rate (E : env) (v : Z) (addr : string) : M unit :=
  try_except
    (emit (AInsert v addr);;
     match insert_raises E with
     | Some e => raise e
     | None =>
         modify (fun s =>
           set_measurements (insert_row (CURRENT_TIMESTAMP E) v addr (measurements s)) s)
     end)
    (fun e => emit (ALog (Error_database e))).

(** ** [class BleakClient] (lines 70-86) *)

(** [BleakClient(address)]: a fresh object, not connected, no callbacks. *)
Definition BleakClient_new (addr : string) : M client_id :=
  fun s => (Ok (length (clients s)),
            set_clients (clients s ++ [mkClient addr false []]) s).

(** [connect] suspends in [asyncio.sleep(1)] before it does anything; this
    is what runs when it is resumed: [self.is_connected = True]. The task
    it then creates for [_simulate_notifications] is accounted for by the
    event loop, see [Loop.step]. *)
Definition BleakClient_connect_resume (E : env) (self : client_id) : M unit :=
  cl <- deref self;;
  match connect_raises E (address cl) with
  | Some e => raise e
  | None => update_client self (fun o => mkClient (address o) true (notify_callbacks o))
  end.

(** [disconnect]: [self.is_connected = False]. *)
Definition BleakClient_disconnect (E : env) (self : client_id) : M unit :=
  emit (ABleDisconnect self);;
  cl <- deref self;;
  match disconnect_raises E (address cl) with
  | Some e => raise e
  | None => update_client self (fun o => mkClient (address o) false (notify_callbacks o))
  end.

(** [self._notify_callbacks[char_specifier] = callback] *)
Definition setitem (k : string) (cb : callback) (d : list (string * callback))
    : list (string * callback) :=
  (k, cb) :: List.filter (fun kv => negb (String.eqb (fst kv) k)) d.

Definition BleakClient_start_notify (E : env) (self : client_id)
    (char_specifier : string) (cb : callback) : M unit :=
  emit (AStartNotify self);;
  cl <- deref self;;
  match start_notify_raises E (address cl) with
  | Some e => raise e
  | None =>
      update_client self (fun o =>
        mkClient (address o) (is_connected o)
                 (setitem char_specifier cb (notify_callbacks o)))
  end.

(** ** [ConnectionManager.broadcast] (lines 121-126)

    The [for] loop walks the live list [self.active_connections] and
    awaits each [send_json]. [send_all] and [broadcast] are the pass
    during which no other task changes the list: the loop then visits the
    entries that the list has when the pass starts. The pass with other
    tasks registering and unregistering viewers while a send is awaited is
    [broadcast_among] below. *)

(** The body of the [for] loop, for the connections still to visit. *)
Fixpoint send_all (E : env) (connections : list WebSocket) (m : message) : M unit :=
  match connections with
  | [] => ret tt
  | connection :: rest =>
      try_except
        (emit (ASend connection m);;
         match send_json_raises E connection with
         | Some e => raise e
         | None => ret tt
         end)
        (fun e => emit (ALog (Error_broadcast e)));;
      send_all E rest m
  end.

Definition broadcast (E : env) (m : message) : M unit :=
  emit (AEmit m);;
  connections <- gets active_connections;;
  send_all E connections m.

(** ** [heart_rate_notification_handler] (lines 208-228) *)

Definition heart_rate_notification_handler (E : env) (data : list byte) : M unit :=
  hr_val <- lift (Payload.decode data);;
  modify (set_current_hr hr_val);;
  emit (ASetHr hr_val);;
  emit (ALog (Info_heart_rate hr_val));;
  cc <- gets current_client;;
  match cc with
  | Some c => cl <- deref c;; save_heart_rate E hr_val (address cl)
  | None => ret tt
  end;;
  broadcast E (Msg_heart_rate hr_val).

(** ** [connect_ble] (lines 247-261) and [disconnect_ble] (lines 263-268) *)

(** [if current_client and current_client.is_connected:
        await current_client.disconnect()] *)
Definition disconnect_if_connected (E : env) (after : M unit) : M unit :=
  cc <- gets current_client;;
  match cc with
  | Some c =>
      cl <- deref c;;
      if is_connected cl then BleakClient_disconnect E c;; after else ret tt
  | None => ret tt
  end.

(** [connect_ble] up to the point where [current_client.connect()]
    suspends in its [asyncio.sleep]: the guard, the "Connecting" status,
    the new client stored in the global, the call of [connect]. The result
    is the object [connect] was called on, its [self]. *)
Definition connect_ble_begin (E : env) (addr : string) : M client_id :=
  disconnect_if_connected E (ret tt);;
  broadcast E (Msg_status ("Connecting to " ++ addr ++ "..."));;
  c <- BleakClient_new addr;;
  modify (set_current_client (Some c));;
  emit (ABleConnect c);;
  ret c.

(** [connect_ble] from the resumption of [connect] on: the rest of the
    [try] body and the [except] clause. [start_notify] is called on
    whatever the global [current_client] holds by then. *)
Definition connect_ble_resume (E : env) (self : client_id) (addr : string) : M unit :=
  try_except
    (BleakClient_connect_resume E self;;
     broadcast E (Msg_status ("Connected to " ++ addr));;
     cc <- gets current_client;;
     match cc with
     | Some c => BleakClient_start_notify E c HR_UUID heart_rate_handler
     | None => raise AttributeError
     end)
    (fun e =>
       emit (ALog (Error_connection e));;
       broadcast E (Msg_error (str e));;
       modify (set_current_client None)).

(** [connect_ble] run without another task in between. *)
Definition connect_ble (E : env) (addr : string) : M unit :=
  self <- connect_ble_begin E addr;;
  connect_ble_resume E self addr.

Definition disconnect_ble (E : env) : M unit :=
  disconnect_if_connected E (broadcast E (Msg_status "Disconnected"));;
  modify (set_current_client None).

(** ** [get_history] (lines 159-206)

    The four queries are modelled by what SQLite computes for them on the
    rows of [measurements]. Text is ordered by the [BINARY] collation
    (byte-wise lexicographic), which on the fixed-width
    [YYYY-MM-DD HH:MM:SS] texts is the chronological order. [AVG] is a
    rational here; SQLite and Python hold it in a double, which rounds to
    the same integer as long as a group has fewer than 2^36 rows of values
    below 2^16 (the quotient of two such integers is never within half an
    ulp of a half-integer it does not equal). [limit] is bound as an
    SQLite INTEGER, a signed 64-bit number: [c.execute(query, (limit,))]
    raises [OverflowError] for a Python int outside that range, before
    any row is read, and nothing in [get_history] catches it. *)

Module History.

(** The [BINARY] collation on text. *)
Definition text_compare : string -> string -> comparison := String_as_OT.compare.
Definition text_lt (a b : string) : Prop := text_compare a b = Lt.
Definition text_le (a b : string) : Prop := text_compare a b <> Gt.

(** [strftime(fmt, timestamp)] on a [YYYY-MM-DD HH:MM:SS] text. *)
Definition strftime_minute (ts : string) : string :=   (* '%Y-%m-%d %H:%M' *)
  substring 0 16 ts.
Definition strftime_hour (ts : string) : string :=     (* '%Y-%m-%d %H:00' *)
  String.append (substring 0 13 ts) ":00".
Definition strftime_day (ts : string) : string :=      (* '%Y-%m-%d' *)
  substring 0 10 ts.

(** [LIMIT ?]: a negative value means no upper bound. *)
Definition sql_limit {A} (limit : Z) (rows : list A) : list A :=
  if limit <? 0 then rows else firstn (Z.to_nat limit) rows.

(** [AVG(value)] over the rows of one group (never empty). *)
Definition AVG (vs : list Z) : Q :=
  Qmake (fold_right Z.add 0 vs) (Pos.of_nat (length vs)).

(** The distinct keys, largest first: [GROUP BY k ORDER BY k DESC]. *)
Fixpoint insert_desc (k : string) (l : list string) : list string :=
  match l with
  | [] => [k]
  | x :: l' =>
      match text_compare k x with
      | Eq => l
      | Gt => k :: l
      | Lt => x :: insert_desc k l'
      end
  end.

Definition distinct_desc (ks : list string) : list string :=
  fold_right insert_desc [] ks.

(** The values of the rows whose bucket is [k]. *)
Definition group_values (bucket : string -> string) (k : string)
    (rows : list measurement) : list Z :=
  map value (List.filter (fun r => String.eqb (bucket (timestamp r)) k) rows).

(** [SELECT strftime(fmt, timestamp) as time_bucket, AVG(value)
     FROM measurements GROUP BY time_bucket
     ORDER BY time_bucket DESC LIMIT ?] *)
Definition select_buckets (bucket : string -> string) (limit : Z)
    (rows : list measurement) : list (string * Q) :=
  sql_limit limit
    (map (fun k => (k, AVG (group_values bucket k rows)))
         (distinct_desc (map (fun r => bucket (timestamp r)) rows))).

(** [ORDER BY timestamp DESC]. SQL leaves the order of rows with equal
    timestamps open; SQLite's sorter keeps them in the order of the table
    scan, which is the order of insertion: of two rows with the same
    timestamp the earlier one comes first. [r] is a row inserted after
    those of [l]. *)
Fixpoint insert_row_desc (r : measurement) (l : list measurement) : list measurement :=
  match l with
  | [] => [r]
  | x :: l' =>
      match text_compare (timestamp r) (timestamp x) with
      | Gt => r :: l
      | _ => x :: insert_row_desc r l'
      end
  end.

Definition order_by_timestamp_desc (rows : list measurement) : list measurement :=
  fold_right insert_row_desc [] (rev rows).

(** [SELECT timestamp, value FROM measurements
     ORDER BY timestamp DESC LIMIT ?] *)
Definition select_raw (limit : Z) (rows : list measurement) : list (string * Q) :=
  sql_limit limit
    (map (fun r => (timestamp r, inject_Z (value r)))
         (order_by_timestamp_desc rows)).

(** Python's [round(x)]: to the nearest integer, ties to the even one. *)
Definition round (x : Q) : Z :=
  let f := Qfloor x in
  match Qcompare (x - inject_Z f) (1 # 2) with
  | Lt => f
  | Gt => f + 1
  | Eq => if Z.even f then f else f + 1
  end.

(** The reply: [{"timestamp": row[0], "value": round(row[1])}]. *)
Record point : Type := mkPoint { point_timestamp : string; point_value : Z }.

(** The values that [sqlite3] binds to a [?]: a Python int that fits a
    signed 64-bit SQLite INTEGER. *)
Definition min_int64 : Z := - 2 ^ 63.
Definition max_int64 : Z := 2 ^ 63 - 1.
Definition fits_int64 (n : Z) : bool := (min_int64 <=? n) && (n <=? max_int64).

(** [c.execute(query, (limit,))] followed by [c.fetchall()]. *)
Definition execute (period : string) (limit : Z)
    (rows : list measurement) : result (list (string * Q)) :=
  if fits_int64 limit then
    Ok (if String.eqb period "minute" then select_buckets strftime_minute limit rows
        else if String.eqb period "hour" then select_buckets strftime_hour limit rows
        else if String.eqb period "day" then select_buckets strftime_day limit rows
        else select_raw limit rows)
  else Raise OverflowError.

Definition get_history (period : string) (limit : Z)
    (rows : list measurement) : result (list point) :=
  match execute period limit rows with
  | Ok fetched =>
      Ok (map (fun row => mkPoint (fst row) (round (snd row))) (rev fetched))
  | Raise e => Raise e
  end.

End History.

(** ** Tasks on the one event loop

    Each viewer's [websocket_endpoint] is a task of its own, and so is the
    [_simulate_notifications] loop that the stand-in client starts when it
    connects. A task runs until it suspends. The switch points modelled
    here are the two [asyncio.sleep] calls of the stand-in client, where a
    task certainly suspends: inside [connect] and inside the notification
    loop. A broadcast pass can be suspended at each send as well; what
    the viewers' tasks then do to the list of viewers is the subject of
    [broadcast_among] further down, and the passes made by the tasks of
    this module are those during which that list does not change. *)

Module Loop.

Inductive task : Type :=
| Connect_called (addr : string)                        (* connect_ble(addr), not started *)
| Connect_suspended (self : client_id) (addr : string)  (* inside self.connect() *)
| Disconnect_called                                     (* disconnect_ble(), not started *)
| Notify_created (self : client_id)                     (* create_task(self._simulate_notifications()) *)
| Notify_sleeping (self : client_id)                    (* inside the loop's asyncio.sleep(1) *)
| Finished (r : result unit).

(** [while self.is_connected:] sleep again, or leave the loop. *)
Definition while_connected (self : client_id) (s : state) : task :=
  match clients s !! self with
  | Some cl => if is_connected cl then Notify_sleeping self else Finished (Ok tt)
  | None => Finished (Raise AttributeError)
  end.

(** [HR_UUID in self._notify_callbacks] *)
Definition has_callback (cl : BleakClient) : bool :=
  existsb (fun kv => String.eqb (fst kv) HR_UUID) (notify_callbacks cl).

(** Run one task until it suspends or returns; the second component is
    the tasks it has created. *)
Definition step (E : env) (t : task) (s : state) : task * list task * state :=
  match t with
  | Connect_called addr =>
      match connect_ble_begin E addr s with
      | (Ok self, s') => (Connect_suspended self addr, [], s')
      | (Raise e, s') => (Finished (Raise e), [], s')
      end
  | Connect_suspended self addr =>
      let (r, s') := connect_ble_resume E self addr s in
      (Finished r,
       match connect_raises E addr with
       | None => [Notify_created self]
       | Some _ => []
       end,
       s')
  | Disconnect_called =>
      let (r, s') := disconnect_ble E s in (Finished r, [], s')
  | Notify_created self => (while_connected self s, [], s)
  | Notify_sleeping self =>
      match clients s !! self with
      | Some cl =>
          if has_callback cl then
            match heart_rate_notification_handler E [x00; randint E] s with
            | (Ok _, s') => (while_connected self s', [], s')
            | (Raise e, s') => (Finished (Raise e), [], s')
            end
          else (while_connected self s, [], s)
      | None => (Finished (Raise AttributeError), [], s)
      end
  | Finished r => (Finished r, [], s)
  end.

(** The loop resumes the tasks in the order of [schedule]. *)
Fixpoint run (E : env) (schedule : list nat) (tasks : list task) (s : state)
    : list task * state :=
  match schedule with
  | [] => (tasks, s)
  | i :: rest =>
      match tasks !! i with
      | Some t =>
          let '(t', created, s') := step E t s in
          run E rest (<[i := t']> tasks ++ created) s'
      | None => run E rest tasks s
      end
  end.

End Loop.

(** ** [ConnectionManager.connect] and [disconnect] (lines 114-119) *)

Definition set_active_connections (l : list WebSocket) (s : state) : state :=
  mkState (clients s) (current_client s) (current_hr s) l
          (measurements s) (trace s).

(** [list.remove(x)]: the first occurrence goes; [None] stands for the
    [ValueError] raised when there is none. *)
Fixpoint list_remove (x : WebSocket) (l : list WebSocket) : option (list WebSocket) :=
  match l with
  | [] => None
  | y :: l' =>
      if Nat.eqb y x then Some l'
      else match list_remove x l' with
           | Some r => Some (y :: r)
           | None => None
           end
  end.

(** [await websocket.accept(); self.active_connections.append(websocket)],
    the handshake taken to succeed. *)
Definition ConnectionManager_connect (websocket : WebSocket) : M unit :=
  modify (fun s => set_active_connections (active_connections s ++ [websocket]) s).

(** [self.active_connections.remove(websocket)] *)
Definition ConnectionManager_disconnect (websocket : WebSocket) : M unit :=
  fun s => match list_remove websocket (active_connections s) with
           | Some l => (Ok tt, set_active_connections l s)
           | None => (Raise (Exception "list.remove(x): x not in list"), s)
           end.

(** ** [ConnectionManager.broadcast] among the viewers' tasks

    [for connection in self.active_connections] holds an index into the
    list itself, not into a copy: each round reads the entry at the index,
    if there is one, and moves the index on. At [await
    connection.send_json(message)] the pass can be suspended, and the
    endpoint tasks of the viewers run: a viewer that connects is appended
    by [manager.connect], a viewer whose endpoint ends is removed by
    [manager.disconnect]. *)

(** What another task does to the list. *)
Inductive change : Type :=
| Registers (websocket : WebSocket)      (* manager.connect(websocket) *)
| Unregisters (websocket : WebSocket).   (* manager.disconnect(websocket) *)

(** The list after a change; a [ValueError] of [list.remove] is raised in
    the other task and leaves the list as it is. *)
Definition apply_change (c : change) (l : list WebSocket) : list WebSocket :=
  match c with
  | Registers websocket => l ++ [websocket]
  | Unregisters websocket =>
      match list_remove websocket l with
      | Some l' => l'
      | None => l
      end
  end.

(** The state after the other tasks have made their changes. *)
Fixpoint meanwhile (others : list change) (s : state) : state :=
  match others with
  | [] => s
  | c :: rest =>
      meanwhile rest
        (set_active_connections (apply_change c (active_connections s)) s)
  end.

(** The [for] loop from index [i] on. [during] tells, for each send that
    the pass awaits in turn, the changes that other tasks make while it is
    suspended there; once [during] is used up no other task runs, and the
    loop visits what the list holds from its index on. *)
Fixpoint broadcast_loop (E : env) (m : message) (i : nat)
    (during : list (list change)) : M unit :=
  match during with
  | [] =>
      connections <- gets active_connections;;
      send_all E (drop i connections) m
  | others :: later =>
      connections <- gets active_connections;;
      match connections !! i with
      | None => ret tt                                   (* StopIteration *)
      | Some connection =>
          try_except
            (emit (ASend connection m);;
             modify (meanwhile others);;
             match send_json_raises E connection with
             | Some e => raise e
             | None => ret tt
             end)
            (fun e => emit (ALog (Error_broadcast e)));;
          broadcast_loop E m (S i) later
      end
  end.

Definition broadcast_among (E : env) (m : message)
    (during : list (list change)) : M unit :=
  emit (AEmit m);;
  broadcast_loop E m 0 during.

(** ** [websocket_endpoint] (lines 230-245) *)

(** What one [await websocket.receive_json()] gives: a JSON object, seen
    through the two lookups the loop makes ([data.get("action")] when it
    is a string, [data.get("address")] when it is a string, [None] when
    absent or null); some other JSON value, on which [data.get] raises
    [AttributeError]; an exception of the transport; or the peer's
    disconnect. *)
Inductive received : Type :=
| Object (action : option string) (addr : option string)
| Not_an_object
| Receive_raises (e : exn)
| WebSocketDisconnect.

(** How the endpoint has ended, if it has: the [except] clause taken, with
    the exception that [logger.error(f"WebSocket error: {e}")] reports. *)
Inductive ending : Type :=
| Still_receiving
| Peer_closed
| Error_logged (e : exn).

(** [f"{address}"], [str(address)] *)
Definition py_str (o : option string) : string :=
  match o with
  | Some a => a
  | None => "None"
  end.

(** The body of the [while True] loop once [data] is an object. *)
Definition dispatch (E : env) (action addr : option string) : M unit :=
  match action with
  | Some a =>
      if String.eqb a "connect" then connect_ble E (py_str addr)
      else if String.eqb a "disconnect" then disconnect_ble E
      else ret tt
  | None => ret tt
  end.

(** The [try] statement, for the messages still to come. *)
Fixpoint receive_loop (E : env) (websocket : WebSocket) (events : list received)
    : M ending :=
  match events with
  | [] => ret Still_receiving
  | WebSocketDisconnect :: _ =>
      ConnectionManager_disconnect websocket;; ret Peer_closed
  | Receive_raises e :: _ =>
      ConnectionManager_disconnect websocket;; ret (Error_logged e)
  | Not_an_object :: _ =>
      ConnectionManager_disconnect websocket;; ret (Error_logged AttributeError)
  | Object action addr :: rest =>
      fun s => match dispatch E action addr s with
               | (Ok _, s') => receive_loop E websocket rest s'
               | (Raise e, s') =>
                   (ConnectionManager_disconnect websocket;; ret (Error_logged e)) s'
               end
  end.

Definition websocket_endpoint (E : env) (websocket : WebSocket)
    (events : list received) : M ending :=
  ConnectionManager_connect websocket;;
  receive_loop E websocket events.

(** ** [scan_devices] (lines 136-157) *)

Module Scan.

(** A discovered device and its advertisement: [d.name] (possibly [None]
    or empty), [d.address], [adv.rssi]. *)
Record found : Type := mkFound {
  name : option string;
  dev_address : string;
  rssi : Z
}.

(** [{"name": name, "address": d.address, "rssi": adv.rssi}] *)
Record entry : Type := mkEntry {
  entry_name : string;
  entry_address : string;
  entry_rssi : Z
}.

(** [d.name if d.name else "Unknown"] *)
Definition display_name (n : option string) : string :=
  match n with
  | Some (String c rest) => String c rest
  | _ => "Unknown"
  end.

Definition entry_of (d : found) : entry :=
  mkEntry (display_name (name d)) (dev_address d) (rssi d).

(** [device_list.sort(key=lambda x: x["rssi"], reverse=True)]: strongest
    first, entries of equal strength in their order of arrival. *)
Fixpoint insert_entry (x : entry) (l : list entry) : list entry :=
  match l with
  | [] => [x]
  | y :: l' =>
      if entry_rssi x <? entry_rssi y then y :: insert_entry x l' else x :: l
  end.

Definition sort_by_rssi (l : list entry) : list entry :=
  fold_right insert_entry [] l.

(** The two devices of the stand-in scanner. *)
Definition mock_discover : list found :=
  [mkFound (Some "Mock HR Monitor") "00:11:22:33:44:55" (-60);
   mkFound (Some "Another Device") "AA:BB:CC:DD:EE:FF" (-80)].

(** [scan_devices]: [discovered] is what [BleakScanner.discover] returned
    (the values of its dict, in order) or raised. The lines it logs are
    not part of the reply and are left out. *)
Definition scan_devices (discovered : result (list found)) : list entry :=
  match discovered with
  | Ok devices => sort_by_rssi (map entry_of devices)
  | Raise _ => []
  end.

End Scan.

(** ** A run of notifications *)

(** The adapter calls the handler once per notification, each with the
    environment of its moment; a handler that raises ends the run. *)
Fixpoint deliver (items : list (env * list byte)) : M unit :=
  match items with
  | [] => ret tt
  | (E, data) :: rest => heart_rate_notification_handler E data;; deliver rest
  end.

(** ** Vocabulary of the statements *)

(** The sessions that are live: the client objects with [is_connected]. *)
Definition active_sessions (s : state) : list BleakClient :=
  List.filter is_connected (clients s).

(** Every live client is the one the global refers to. *)
Definition single_session (s : state) : Prop :=
  forall c cl, clients s !! c = Some cl -> is_connected cl = true ->
               current_client s = Some c.

(** [s] with [l] appended to its trace. *)
Definition add_trace (l : list action) (s : state) : state :=
  mkState (clients s) (current_client s) (current_hr s) (active_connections s)
          (measurements s) (trace s ++ l).

(** What one broadcast pass over [connections] appends to the trace. *)
Definition deliveries (E : env) (m : message) (connections : list WebSocket) : list action :=
  flat_map (fun ws => ASend ws m ::
                      match send_json_raises E ws with
                      | Some e => [ALog (Error_broadcast e)]
                      | None => []
                      end) connections.

(** What [manager.broadcast(m)] appends to the trace. *)
Definition emission (E : env) (m : message) (s : state) : list action :=
  AEmit m :: deliveries E m (active_connections s).

(** No viewer registers or unregisters while the pass awaits its sends. *)
Definition undisturbed (during : list (list change)) : Prop :=
  Forall (fun others => others = []) during.

(** The list after the changes [cs], made in turn. *)
Definition changed (cs : list change) (l : list WebSocket) : list WebSocket :=
  fold_left (fun l c => apply_change c l) cs l.

(** The environment of the stand-in client: nothing raises. *)
Definition quiet (now : string) : env :=
  mkEnv (fun _ => None) None (fun _ => None) (fun _ => None) (fun _ => None) now x48.

(** The process after start-up, with [viewers] on their sockets. *)
Definition initial (viewers : list WebSocket) : state :=
  mkState [] None 0 viewers [] [].

(** The action is the call [manager.broadcast(m)]. *)
Definition is_emit (m : message) (a : action) : bool :=
  match a, m with
  | AEmit (Msg_status t), Msg_status t' => String.eqb t t'
  | AEmit (Msg_heart_rate v), Msg_heart_rate v' => v =? v'
  | AEmit (Msg_error t), Msg_error t' => String.eqb t t'
  | _, _ => false
  end.

(** Number of times [m] was handed to [manager.broadcast]. *)
Definition emitted (m : message) (tr : list action) : nat :=
  length (List.filter (is_emit m) tr).

(** ** What the commands compute, in closed form, and sample states *)

(** What [save_heart_rate] appends to the trace. *)
Definition persistence (E : env) (v : Z) (addr : string) : list action :=
  AInsert v addr ::
  match insert_raises E with
  | Some e => [ALog (Error_database e)]
  | None => []
  end.

(** The table after [save_heart_rate]. *)
Definition persisted (E : env) (v : Z) (addr : string)
    (rows : list measurement) : list measurement :=
  match insert_raises E with
  | Some _ => rows
  | None => insert_row (CURRENT_TIMESTAMP E) v addr rows
  end.

(** Unfolds the monad's operations. *)
Ltac run_monad :=
  unfold bind, try_except, emit, modify, gets, lift, raise, ret, deref; simpl.

(** The object after [self.is_connected = False]. *)
Definition turn_off (o : BleakClient) : BleakClient :=
  mkClient (address o) false (notify_callbacks o).

(** The global refers to an object of the heap. *)
Definition well_formed (s : state) : Prop :=
  forall c, current_client s = Some c -> is_Some (clients s !! c).

(** No adapter call raises, as with the stand-in client of the source. *)
Definition adapter_succeeds (E : env) : Prop :=
  (forall a, connect_raises E a = None) /\
  (forall a, start_notify_raises E a = None) /\
  (forall a, disconnect_raises E a = None).

(** The client the guard [current_client and current_client.is_connected]
    lets through. *)
Definition live (s : state) : option client_id :=
  match current_client s with
  | Some c =>
      match clients s !! c with
      | Some cl => if is_connected cl then Some c else None
      | None => None
      end
  | None => None
  end.

(** The state once the guarded [disconnect()] has returned. *)
Definition released (s : state) : state :=
  match live s with
  | Some c => set_clients (alter turn_off c (clients s)) (add_trace [ABleDisconnect c] s)
  | None => s
  end.

(** The client object a successful [connect_ble] leaves behind. *)
Definition session (addr : string) : BleakClient :=
  mkClient addr true [(HR_UUID, heart_rate_handler)].

(** What [connect_ble] appends once the guard is through. *)
Definition connecting (E : env) (addr : string) (s : state) : list action :=
  emission E (Msg_status ("Connecting to " ++ addr ++ "...")) s
  ++ [ABleConnect (length (clients s))]
  ++ emission E (Msg_status ("Connected to " ++ addr)) s
  ++ [AStartNotify (length (clients s))].

(** The state a successful [connect_ble] returns in. *)
Definition connected (E : env) (addr : string) (s : state) : state :=
  mkState (clients (released s) ++ [session addr])
          (Some (length (clients s)))
          (current_hr s) (active_connections s) (measurements s)
          (trace (released s) ++ connecting E addr s).

(** A sample clock reading and the address of the stand-in monitor. *)
Definition now0 : string := "2024-05-01 10:15:30".

Definition monitor : string := "00:11:22:33:44:55".

(** Two viewers are watching; the first has asked for the monitor. *)
Definition monitoring : state :=
  snd (connect_ble (quiet now0) monitor (initial [0%nat; 1%nat])).

(** ... and then asked to disconnect. *)
Definition idle : state := snd (disconnect_ble (quiet now0) monitoring).

(** The log records of a trace. *)
Definition is_log (a : action) : bool :=
  match a with ALog _ => true | _ => false end.

(** A full disk: the insert raises. *)
Definition disk_full : env :=
  mkEnv (fun _ => None) (Some (Exception "database or disk is full"))
        (fun _ => None) (fun _ => None) (fun _ => None) now0 x48.

(** The second of three viewers has gone away. *)
Definition second_fails : env :=
  mkEnv (fun ws => if Nat.eqb ws 1 then Some (Exception "socket closed") else None)
        None (fun _ => None) (fun _ => None) (fun _ => None) now0 x48.

Section HistoryVocabulary.
Import History.

(** Largest first, no repeats. *)
Definition descending (l : list string) : Prop :=
  StronglySorted (fun a b => text_lt b a) l.

(** Latest first. *)
Definition latest_first (l : list measurement) : Prop :=
  StronglySorted (fun a b => text_le (timestamp b) (timestamp a)) l.

(** The arithmetic mean of a group. *)
Definition mean (vs : list Z) : Q :=
  inject_Z (fold_right Z.add 0 vs) / inject_Z (Z.of_nat (length vs)).

(** The granularity a period selects, if it selects one. *)
Definition bucket_of (period : string) : option (string -> string) :=
  if String.eqb period "minute" then Some strftime_minute
  else if String.eqb period "hour" then Some strftime_hour
  else if String.eqb period "day" then Some strftime_day
  else None.

(** The keys of all groups, newest first. *)
Definition bucket_keys (f : string -> string) (rows : list measurement) : list string :=
  distinct_desc (map (fun r => f (timestamp r)) rows).

(** The reply for one group. *)
Definition bucket_point (f : string -> string) (rows : list measurement) (k : string) : point :=
  mkPoint k (round (AVG (group_values f k rows))).

(** The reply for one row of the raw query. *)
Definition raw_point (r : measurement) : point := mkPoint (timestamp r) (value r).

(** The text that [CURRENT_TIMESTAMP] stores, [YYYY-MM-DD HH:MM:SS], from
    its fields. *)
Definition timestamp_text (date hh mm ss : string) : string :=
  (date ++ " " ++ hh ++ ":" ++ mm ++ ":" ++ ss)%string.

End HistoryVocabulary.

(** ** Notions for the properties of the table and of a run of notifications *)

(** The ids of the table grow from row to row. *)
Definition ids_increasing (rows : list measurement) : Prop :=
  StronglySorted Z.lt (map row_id rows).

(** The heart rates handed to [manager.broadcast], in order. *)
Definition heart_rates (tr : list action) : list Z :=
  flat_map (fun a => match a with
                     | AEmit (Msg_heart_rate v) => [v]
                     | _ => []
                     end) tr.


Definition no_heart_rate_service : env :=
  mkEnv (fun _ => None) None (fun _ => None)
        (fun _ => Some (Exception "Characteristic not found")) (fun _ => None) now0 x48.

Definition link_stuck : env :=
  mkEnv (fun _ => None) None (fun _ => None) (fun _ => None)
        (fun _ => Some (Exception "Not connected")) now0 x48.

(** A message the loop of [websocket_endpoint] passes over: an object
    whose action is neither "connect" nor "disconnect". *)
Definition passed_over (ev : received) : Prop :=
  match ev with
  | Object action _ => action <> Some "connect" /\ action <> Some "disconnect"
  | _ => False
  end.

(** The state is one that commands run in turn leave behind: the global
    refers to a client of the heap, no other client is connected, and so
    at most one is. *)
Definition settled (s : state) : Prop :=
  well_formed s /\ single_session s /\ (length (active_sessions s) <= 1)%nat.

(** The message is a JSON object. *)
Definition is_object (ev : received) : Prop :=
  match ev with
  | Object _ _ => True
  | _ => False
  end.

(** * Properties *)

(** ** Trace bookkeeping *)

Lemma add_trace_nil s : add_trace [] s = s.
Proof. destruct s; unfold add_trace; simpl. now rewrite app_nil_r. Qed.

Lemma add_trace_app l1 l2 s : add_trace l2 (add_trace l1 s) = add_trace (l1 ++ l2) s.
Proof. unfold add_trace; simpl. now rewrite <- app_assoc. Qed.

Lemma record_add_trace a s : record a s = add_trace [a] s.
Proof. reflexivity. Qed.

Lemma send_all_run E m connections s :
  send_all E connections m s = (Ok tt, add_trace (deliveries E m connections) s).
Proof.
  revert s. induction connections as [|ws rest IH]; intros s; simpl.
  - now rewrite add_trace_nil.
  - unfold bind at 1, try_except, emit, modify, bind at 1.
    destruct (send_json_raises E ws) as [e|]; simpl; unfold raise, ret; simpl;
      rewrite IH, !record_add_trace, ?add_trace_app; reflexivity.
Qed.

Lemma broadcast_run E m s :
  broadcast E m s = (Ok tt, add_trace (emission E m s) s).
Proof.
  unfold broadcast, bind, emit, modify, gets; simpl.
  now rewrite send_all_run, record_add_trace, add_trace_app.
Qed.

(** A pass that no other task disturbs is the pass over the list as it
    is at the start. *)
Lemma broadcast_loop_undisturbed E m during i s :
  undisturbed during ->
  broadcast_loop E m i during s
  = send_all E (drop i (active_connections s)) m s.
Proof.
  intros Hq. revert i s.
  induction Hq as [|others later -> _ IH]; intros i s; [reflexivity|].
  cbn [broadcast_loop]. unfold bind at 1, gets at 1.
  destruct (active_connections s !! i) as [connection|] eqn:Hi.
  - rewrite (drop_S _ _ _ Hi). cbn [send_all].
    unfold bind, try_except, emit, modify, raise, ret. cbn [meanwhile].
    destruct (send_json_raises E connection) as [e|]; now rewrite IH.
  - apply lookup_ge_None in Hi. now rewrite drop_ge by assumption.
Qed.

(** Whatever the other tasks do, the pass returns, and only they change
    the list. *)
Lemma meanwhile_changed others s :
  meanwhile others s
  = set_active_connections (changed others (active_connections s)) s.
Proof.
  revert s. induction others as [|c rest IH]; intros s; cbn [meanwhile].
  - now destruct s.
  - rewrite IH. reflexivity.
Qed.

Lemma broadcast_loop_returns E m during i s :
  exists s' k,
    broadcast_loop E m i during s = (Ok tt, s') /\
    active_connections s'
    = changed (concat (firstn k during)) (active_connections s) /\
    clients s' = clients s /\ current_client s' = current_client s /\
    current_hr s' = current_hr s /\ measurements s' = measurements s.
Proof.
  revert i s. induction during as [|others later IH]; intros i s.
  - exists (add_trace (deliveries E m (drop i (active_connections s))) s), 0%nat.
    cbn [broadcast_loop]. unfold bind, gets. rewrite send_all_run.
    repeat split.
  - cbn [broadcast_loop]. unfold bind at 1, gets at 1.
    destruct (active_connections s !! i) as [connection|].
    + unfold bind, try_except, emit, modify, raise, ret.
      rewrite meanwhile_changed.
      destruct (send_json_raises E connection) as [e|];
        match goal with
        | |- context [broadcast_loop E m (S i) later ?s1] =>
            destruct (IH (S i) s1) as (s' & k & Hrun & Hact & Hc & Hcc & Hhr & Hrows)
        end;
        exists s', (S k); rewrite Hrun;
        (split; [reflexivity|]);
        cbn [firstn concat]; unfold changed in *; rewrite fold_left_app;
        repeat split; assumption.
    + exists s, 0%nat. repeat split.
Qed.

Lemma broadcast_among_undisturbed E m during s :
  undisturbed during -> broadcast_among E m during s = broadcast E m s.
Proof.
  intros Hq. unfold broadcast_among, broadcast, bind, emit, modify, gets.
  now rewrite broadcast_loop_undisturbed by assumption.
Qed.

(** ** The payload decoder *)

Section Decoder.
Import Payload.

Lemma int_of_byte_range b : 0 <= int_of_byte b <= 255.
Proof.
  unfold int_of_byte. pose proof (Byte.to_N_bounded b). lia.
Qed.

Lemma land_1_is_bit0 x : (Z.land x 1 =? 0) = negb (Z.testbit x 0).
Proof.
  change 1 with (Z.ones 1) at 1. rewrite Z.land_ones by lia.
  rewrite Z.bit0_eqb. change (2 ^ 1) with 2.
  pose proof (Z.mod_pos_bound x 2 ltac:(lia)).
  destruct (x mod 2 =? 0) eqn:H0, (x mod 2 =? 1) eqn:H1; try reflexivity; lia.
Qed.

Lemma little_endian_16 lo hi :
  Z.lor (int_of_byte lo) (Z.shiftl (int_of_byte hi) 8)
  = int_of_byte lo + 256 * int_of_byte hi.
Proof.
  pose proof (int_of_byte_range lo) as Hlo.
  pose proof (int_of_byte_range hi) as Hhi.
  pose proof (Z.add_lor_land (int_of_byte lo) (Z.shiftl (int_of_byte hi) 8)) as Hadd.
  assert (Z.land (int_of_byte lo) (Z.shiftl (int_of_byte hi) 8) = 0) as Hland.
  { apply Z.bits_inj'. intros n Hn. rewrite Z.land_spec, Z.bits_0.
    destruct (Z.ltb_spec n 8).
    - rewrite Z.shiftl_spec_low by lia. apply andb_false_r.
    - rewrite (Z.bits_above_log2 (int_of_byte lo) n); [reflexivity|lia|].
      destruct (Z.eq_dec (int_of_byte lo) 0) as [->|]; [simpl; lia|].
      apply Z.lt_le_trans with 8; [|lia].
      apply Z.log2_lt_pow2; simpl; lia. }
  rewrite Z.shiftl_mul_pow2 in * by lia. change (2 ^ 8) with 256 in *. lia.
Qed.

Lemma decode_cons flag rest :
  decode (flag :: rest)
  = if Z.testbit (int_of_byte flag) 0
    then unpack_from_H (flag :: rest) 1
    else getitem (flag :: rest) 1.
Proof.
  unfold decode. unfold getitem at 1. cbn [nth_error]. cbv zeta.
  rewrite land_1_is_bit0.
  destruct (Z.testbit (int_of_byte flag) 0); reflexivity.
Qed.

End Decoder.

(** ** The notification handler, run *)

Lemma state_eq s1 s2 :
  clients s1 = clients s2 -> current_client s1 = current_client s2 ->
  current_hr s1 = current_hr s2 -> active_connections s1 = active_connections s2 ->
  measurements s1 = measurements s2 -> trace s1 = trace s2 -> s1 = s2.
Proof. destruct s1, s2; simpl; intros; subst; reflexivity. Qed.

Lemma save_heart_rate_run E v addr s :
  save_heart_rate E v addr s
  = (Ok tt, set_measurements (persisted E v addr (measurements s))
                             (add_trace (persistence E v addr) s)).
Proof.
  unfold save_heart_rate, persistence, persisted. run_monad.
  destruct (insert_raises E); simpl; f_equal; apply state_eq; simpl;
    rewrite <- ?app_assoc; reflexivity.
Qed.

Lemma handler_run E data v s :
  Payload.decode data = Ok v ->
  heart_rate_notification_handler E data s
  = let s1 := add_trace [ASetHr v; ALog (Info_heart_rate v)] (set_current_hr v s) in
    match current_client s with
    | None => (Ok tt, add_trace (emission E (Msg_heart_rate v) s) s1)
    | Some c =>
        match clients s !! c with
        | None => (Raise AttributeError, s1)
        | Some cl =>
            (Ok tt,
             add_trace (emission E (Msg_heart_rate v) s)
               (set_measurements (persisted E v (address cl) (measurements s))
                  (add_trace (persistence E v (address cl)) s1)))
        end
    end.
Proof.
  intros Hd. unfold heart_rate_notification_handler.
  unfold bind at 1, lift. rewrite Hd.
  unfold bind at 1, modify. unfold bind at 1, emit, modify.
  unfold bind at 1. unfold bind at 1, gets. cbv zeta.
  cbn [current_client record set_current_hr].
  destruct (current_client s) as [c|] eqn:Hc.
  - unfold bind at 1. unfold bind at 1, deref.
    cbn [clients record set_current_hr].
    destruct (clients s !! c) as [cl|] eqn:Hcl.
    + rewrite save_heart_rate_run, broadcast_run. f_equal.
      apply state_eq; simpl; rewrite <- ?app_assoc; reflexivity.
    + f_equal. apply state_eq; simpl; rewrite <- ?app_assoc; reflexivity.
  - unfold bind at 1, ret. rewrite broadcast_run. f_equal.
    apply state_eq; simpl; rewrite <- ?app_assoc; reflexivity.
Qed.

Lemma handler_raises E data e s :
  Payload.decode data = Raise e ->
  heart_rate_notification_handler E data s = (Raise e, s).
Proof.
  intros Hd. unfold heart_rate_notification_handler, bind at 1, lift.
  now rewrite Hd.
Qed.

(** ** The session commands, run *)

Lemma guard_run E after s :
  (forall a, disconnect_raises E a = None) -> well_formed s ->
  disconnect_if_connected E after s
  = match live s with
    | Some _ => after (released s)
    | None => (Ok tt, s)
    end.
Proof.
  intros Hq Hwf. unfold disconnect_if_connected, released, live.
  unfold bind at 1, gets.
  destruct (current_client s) as [c|] eqn:Hc; [|reflexivity].
  destruct (Hwf c Hc) as [cl Hcl].
  unfold bind at 1, deref. rewrite Hcl.
  destruct (is_connected cl) eqn:Hon; [|reflexivity].
  unfold BleakClient_disconnect. run_monad. rewrite Hcl, Hq. reflexivity.
Qed.

Lemma released_all_off s :
  single_session s ->
  Forall (fun cl => is_connected cl = false) (clients (released s)).
Proof.
  intros Hone. apply Forall_lookup_2. intros i cl Hi.
  unfold released, live in Hi.
  destruct (current_client s) as [c|] eqn:Hc.
  - destruct (clients s !! c) as [cc|] eqn:Hcc.
    + destruct (is_connected cc) eqn:Hon.
      * cbn [clients set_clients add_trace] in Hi.
        destruct (decide (c = i)) as [->|Hne].
        -- rewrite list_lookup_alter_eq, Hcc in Hi. cbn in Hi.
           injection Hi as <-. reflexivity.
        -- rewrite list_lookup_alter_ne in Hi by assumption.
           destruct (is_connected cl) eqn:Hcl; [|reflexivity].
           specialize (Hone i cl Hi Hcl). congruence.
      * destruct (is_connected cl) eqn:Hcl; [|reflexivity].
        specialize (Hone i cl Hi Hcl). congruence.
    + destruct (is_connected cl) eqn:Hcl; [|reflexivity].
      specialize (Hone i cl Hi Hcl). congruence.
  - destruct (is_connected cl) eqn:Hcl; [|reflexivity].
    specialize (Hone i cl Hi Hcl). congruence.
Qed.

Lemma released_fields s :
  length (clients (released s)) = length (clients s) /\
  current_client (released s) = current_client s /\
  current_hr (released s) = current_hr s /\
  active_connections (released s) = active_connections s /\
  measurements (released s) = measurements s.
Proof.
  unfold released. destruct (live s); simpl; rewrite ?length_alter; auto.
Qed.

Lemma connect_ble_run E addr s :
  adapter_succeeds E -> well_formed s ->
  connect_ble E addr s = (Ok tt, connected E addr s).
Proof.
  intros (Hc & Hn & Hd) Hwf.
  destruct (released_fields s) as (Hlen & Hcur & Hhr & Hact & Hrows).
  unfold connect_ble, connect_ble_begin.
  unfold bind at 1. unfold bind at 1.
  rewrite guard_run by assumption.
  assert (match live s with
          | Some _ => ret tt (released s)
          | None => (Ok tt, s)
          end = (Ok tt, released s)) as ->.
  { unfold released. destruct (live s); reflexivity. }
  unfold bind at 1. rewrite broadcast_run.
  unfold connect_ble_resume, BleakClient_connect_resume, BleakClient_new,
    BleakClient_start_notify, update_client.
  run_monad.
  rewrite !list_lookup_middle by (rewrite ?length_alter; reflexivity).
  simpl. rewrite Hc. simpl.
  rewrite broadcast_run.
  cbn [current_client add_trace set_clients record set_current_client clients].
  rewrite list_lookup_alter_eq.
  rewrite !list_lookup_middle by (rewrite ?length_alter; reflexivity).
  cbn [fmap option_fmap option_map address]. rewrite Hn. f_equal.
  unfold connected, connecting, emission, session.
  rewrite Hlen.
  apply state_eq; simpl; rewrite ?Hlen, ?Hact, ?Hhr, ?Hrows; try reflexivity.
  - rewrite <- Hlen, <- (Nat.add_0_r (length (clients (released s)))).
    rewrite !alter_app_r. reflexivity.
  - repeat (rewrite <- app_assoc; simpl). reflexivity.
Qed.

Lemma all_off_no_session (l : list BleakClient) :
  Forall (fun cl => is_connected cl = false) l -> List.filter is_connected l = [].
Proof.
  induction 1 as [|cl l Hcl _ IH]; simpl; [reflexivity|]. now rewrite Hcl.
Qed.

Lemma connected_lookup E addr s :
  clients (connected E addr s) !! length (clients s) = Some (session addr).
Proof.
  simpl. apply list_lookup_middle.
  now destruct (released_fields s) as (-> & _).
Qed.

Lemma connected_well_formed E addr s : well_formed (connected E addr s).
Proof.
  intros c Hc. simpl in Hc. injection Hc as <-.
  rewrite connected_lookup. now exists (session addr).
Qed.

Lemma connected_active E addr s :
  single_session s -> active_sessions (connected E addr s) = [session addr].
Proof.
  intros Hone. unfold active_sessions. simpl.
  rewrite List.filter_app, all_off_no_session by now apply released_all_off.
  reflexivity.
Qed.

Lemma connected_single E addr s :
  single_session s -> single_session (connected E addr s).
Proof.
  intros Hone c cl Hc Hon. simpl in *.
  destruct (released_fields s) as (Hlen & _).
  apply lookup_app_Some in Hc as [Hc|[Hge Hc]].
  - pose proof (released_all_off s Hone) as Hoff.
    rewrite Forall_lookup in Hoff. specialize (Hoff c cl Hc). congruence.
  - rewrite Hlen in *.
    destruct (c - length (clients s))%nat as [|n] eqn:Hn; [|discriminate].
    f_equal. lia.
Qed.


Lemma disconnect_ble_cases E s s1 :
  disconnect_ble E s = (Ok tt, s1) ->
  s1 = set_current_client None
         match live s with
         | Some _ => add_trace (emission E (Msg_status "Disconnected") s) (released s)
         | None => s
         end.
Proof.
  unfold disconnect_ble, disconnect_if_connected, released, live.
  unfold bind at 1. unfold bind at 1, gets.
  destruct (current_client s) as [c|] eqn:Hc.
  - unfold bind at 1, deref.
    destruct (clients s !! c) as [cl|] eqn:Hcl; [|discriminate].
    destruct (is_connected cl) eqn:Hon.
    + unfold bind at 1. unfold BleakClient_disconnect.
      unfold bind at 1, emit, modify. unfold bind at 1, deref.
      cbn [clients record]. rewrite Hcl.
      destruct (disconnect_raises E (address cl)); [discriminate|].
      unfold update_client, modify. rewrite broadcast_run.
      intros [= <-]. reflexivity.
    + intros [= <-]. reflexivity.
  - intros [= <-]. reflexivity.
Qed.

Lemma disconnect_ble_idle E s :
  current_client s = None -> disconnect_ble E s = (Ok tt, s).
Proof.
  intros Hc. unfold disconnect_ble, disconnect_if_connected.
  run_monad. rewrite Hc. simpl. f_equal.
  apply state_eq; simpl; congruence.
Qed.

Lemma emitted_app m l1 l2 : emitted m (l1 ++ l2) = (emitted m l1 + emitted m l2)%nat.
Proof. unfold emitted. now rewrite List.filter_app, length_app. Qed.

Lemma emitted_deliveries m E m' connections :
  emitted m (deliveries E m' connections) = 0%nat.
Proof.
  unfold emitted. induction connections as [|ws l IH]; simpl; [reflexivity|].
  destruct (send_json_raises E ws); simpl; assumption.
Qed.

Lemma is_emit_refl m : is_emit m (AEmit m) = true.
Proof.
  destruct m; simpl; [apply Z.eqb_refl | apply String.eqb_refl ..].
Qed.

Lemma emitted_emission m E s : emitted m (emission E m s) = 1%nat.
Proof.
  unfold emission. change (AEmit m :: ?l) with (([AEmit m] ++ l)%list).
  rewrite emitted_app, emitted_deliveries. unfold emitted.
  cbn [List.filter]. now rewrite is_emit_refl.
Qed.

(** ** The history queries *)

Section TextOrder.
Import History.

Lemma text_compare_refl a : text_compare a a = Eq.
Proof.
  unfold text_compare.
  destruct (String_as_OT.compare_spec a a) as [_|H|H]; [reflexivity|..];
    exfalso; revert H; apply (StrictOrder_Irreflexive (R := String_as_OT.lt)).
Qed.

Lemma text_compare_eq a b : text_compare a b = Eq -> a = b.
Proof.
  unfold text_compare. intros H.
  destruct (String_as_OT.compare_spec a b); congruence.
Qed.

Lemma ot_lt_irrefl a : ~ String_as_OT.lt a a.
Proof. apply (StrictOrder_Irreflexive (R := String_as_OT.lt)). Qed.

Lemma ot_lt_asym a b : String_as_OT.lt a b -> String_as_OT.lt b a -> False.
Proof.
  intros H1 H2. apply (ot_lt_irrefl a).
  now apply (StrictOrder_Transitive (R := String_as_OT.lt)) with b.
Qed.

Lemma text_compare_gt a b : text_compare a b = Gt <-> text_lt b a.
Proof.
  unfold text_lt, text_compare.
  destruct (String_as_OT.compare_spec a b) as [H|H|H],
           (String_as_OT.compare_spec b a) as [H'|H'|H'];
    unfold String_as_OT.eq in *;
    split; intros; try congruence; exfalso; subst;
    eauto using ot_lt_irrefl, ot_lt_asym.
Qed.

Lemma text_lt_trans a b c : text_lt a b -> text_lt b c -> text_lt a c.
Proof.
  unfold text_lt, text_compare.
  apply (StrictOrder_Transitive (R := String_as_OT.lt)).
Qed.

Lemma text_lt_irrefl a : ~ text_lt a a.
Proof. unfold text_lt. now rewrite text_compare_refl. Qed.

Lemma text_lt_le a b : text_lt a b -> text_le a b.
Proof. unfold text_lt, text_le. congruence. Qed.

Lemma text_le_refl a : text_le a a.
Proof. unfold text_le. now rewrite text_compare_refl. Qed.

Lemma text_le_cases a b : text_le a b <-> a = b \/ text_lt a b.
Proof.
  unfold text_le, text_lt. split.
  - destruct (text_compare a b) eqn:H; intros Hgt.
    + left. now apply text_compare_eq.
    + now right.
    + congruence.
  - intros [-> | ->]; [rewrite text_compare_refl|]; discriminate.
Qed.

Lemma text_le_trans a b c : text_le a b -> text_le b c -> text_le a c.
Proof.
  rewrite !text_le_cases. intros [-> | Hab] [-> | Hbc]; auto.
  right. now apply text_lt_trans with b.
Qed.

Lemma text_not_lt_le a b : text_compare a b <> Lt -> text_le b a.
Proof.
  intros H. apply text_le_cases.
  destruct (text_compare a b) eqn:Hc; [| congruence |].
  - left. symmetry. now apply text_compare_eq.
  - right. now apply text_compare_gt.
Qed.

End TextOrder.

Section Sortedness.
Context {A : Type}.

Lemma sorted_app (R : A -> A -> Prop) (l1 l2 : list A) :
  StronglySorted R (l1 ++ l2) <->
  StronglySorted R l1 /\ StronglySorted R l2 /\
  (forall a b, In a l1 -> In b l2 -> R a b).
Proof.
  induction l1 as [|x l1 IH]; simpl.
  - split; [intros H; repeat split; [constructor | assumption | tauto]
           | tauto].
  - split.
    + intros H. inversion H as [|? ? Hs Hall]; subst.
      apply IH in Hs as (H1 & H2 & H12).
      rewrite Forall_app in Hall. destruct Hall as [Ha1 Ha2].
      repeat split; [now constructor | assumption |].
      intros a b [<-|Ha] Hb.
      * rewrite List.Forall_forall in Ha2. now apply Ha2.
      * now apply H12.
    + intros (H1 & H2 & H12).
      inversion H1 as [|? ? Hs Hall]; subst.
      constructor.
      * apply IH. repeat split; auto.
      * rewrite Forall_app. split; [assumption|].
        rewrite List.Forall_forall. intros b Hb. apply H12; auto.
Qed.

Lemma sorted_rev (R : A -> A -> Prop) (l : list A) :
  StronglySorted R l -> StronglySorted (fun a b => R b a) (rev l).
Proof.
  induction 1 as [|x l Hs IH Hall]; simpl; [constructor|].
  apply sorted_app. repeat split.
  - assumption.
  - repeat constructor.
  - intros a b Ha [<-|[]]. rewrite List.Forall_forall in Hall.
    apply Hall. now apply in_rev.
Qed.

Lemma sorted_firstn (R : A -> A -> Prop) n (l : list A) :
  StronglySorted R l -> StronglySorted R (firstn n l).
Proof.
  intros H. rewrite <- (firstn_skipn n l) in H.
  now apply sorted_app in H.
Qed.

Lemma sorted_split (R : A -> A -> Prop) n (l : list A) a b :
  StronglySorted R l -> In a (firstn n l) -> In b (skipn n l) -> R a b.
Proof.
  intros H. rewrite <- (firstn_skipn n l) in H.
  apply sorted_app in H as (_ & _ & H). apply H.
Qed.

Lemma firstn_In n (l : list A) x : In x (firstn n l) -> In x l.
Proof.
  intros H. rewrite <- (firstn_skipn n l). apply in_or_app. now left.
Qed.

End Sortedness.

Section Queries.
Import History.

Lemma insert_desc_In k l x : In x (insert_desc k l) <-> x = k \/ In x l.
Proof.
  induction l as [|y l IH]; simpl; [intuition|].
  destruct (text_compare k y) eqn:Hc; simpl.
  - apply text_compare_eq in Hc. subst. intuition.
  - rewrite IH. intuition.
  - intuition.
Qed.

Lemma insert_desc_sorted k l : descending l -> descending (insert_desc k l).
Proof.
  unfold descending. induction 1 as [|y l Hs IH Hall]; simpl.
  - repeat constructor.
  - destruct (text_compare k y) eqn:Hc.
    + now constructor.
    + constructor; [assumption|].
      rewrite List.Forall_forall in *. intros x Hx.
      apply insert_desc_In in Hx as [->|Hx]; [exact Hc | now apply Hall].
    + apply text_compare_gt in Hc.
      constructor; [now constructor|].
      constructor; [assumption|].
      rewrite List.Forall_forall in *. intros x Hx.
      apply text_lt_trans with y; auto.
Qed.

Lemma distinct_desc_In ks x : In x (distinct_desc ks) <-> In x ks.
Proof.
  unfold distinct_desc. induction ks as [|k ks IH]; simpl; [tauto|].
  rewrite insert_desc_In, IH. intuition.
Qed.

Lemma distinct_desc_sorted ks : descending (distinct_desc ks).
Proof.
  unfold distinct_desc. induction ks as [|k ks IH]; simpl.
  - constructor.
  - now apply insert_desc_sorted.
Qed.

(** A key above all the others comes first. *)
Lemma distinct_desc_newest b ks :
  Forall (fun k => text_lt k b) ks ->
  fold_right insert_desc [b] ks = b :: distinct_desc ks.
Proof.
  unfold distinct_desc. induction 1 as [|k ks Hk _ IH]; simpl; [reflexivity|].
  rewrite IH. simpl. unfold text_lt in Hk. now rewrite Hk.
Qed.

Lemma insert_row_desc_perm r l : Permutation (r :: l) (insert_row_desc r l).
Proof.
  induction l as [|x l IH]; simpl; [reflexivity|].
  destruct (text_compare (timestamp r) (timestamp x)); try reflexivity;
    (rewrite perm_swap; now constructor).
Qed.

Lemma insert_row_desc_sorted r l : latest_first l -> latest_first (insert_row_desc r l).
Proof.
  unfold latest_first. induction 1 as [|x l Hs IH Hall]; simpl.
  - repeat constructor.
  - assert (text_compare (timestamp r) (timestamp x) <> Gt ->
            StronglySorted (fun a b => text_le (timestamp b) (timestamp a))
              (x :: insert_row_desc r l)) as Hbelow.
    { intros Hle. constructor; [assumption|].
      rewrite List.Forall_forall in *. intros y Hy.
      apply (Permutation_in _ (Permutation_sym (insert_row_desc_perm r l))) in Hy.
      destruct Hy as [<-|Hy]; [exact Hle | now apply Hall]. }
    destruct (text_compare (timestamp r) (timestamp x)) eqn:Hc.
    + apply Hbelow. congruence.
    + apply Hbelow. congruence.
    + assert (text_le (timestamp x) (timestamp r)) as Hle
        by (apply text_not_lt_le; congruence).
      constructor; [now constructor|].
      constructor; [assumption|].
      rewrite List.Forall_forall in *. intros y Hy.
      apply text_le_trans with (timestamp x); auto.
Qed.

Lemma order_by_timestamp_desc_perm rows :
  Permutation rows (order_by_timestamp_desc rows).
Proof.
  unfold order_by_timestamp_desc.
  rewrite (Permutation_rev rows) at 1.
  induction (rev rows) as [|r l IH]; simpl; [reflexivity|].
  rewrite <- insert_row_desc_perm. now constructor.
Qed.

Lemma order_by_timestamp_desc_sorted rows :
  latest_first (order_by_timestamp_desc rows).
Proof.
  unfold order_by_timestamp_desc.
  induction (rev rows) as [|r l IH]; simpl.
  - constructor.
  - now apply insert_row_desc_sorted.
Qed.

Lemma sql_limit_firstn {A} limit (l : list A) :
  0 <= limit -> sql_limit limit l = firstn (Z.to_nat limit) l.
Proof.
  intros H. unfold sql_limit.
  destruct (Z.ltb_spec limit 0); [lia | reflexivity].
Qed.

End Queries.

Section Rounding.
Import History.

Lemma round_nearest x : (Qabs (x - inject_Z (round x)) <= 1 # 2)%Q.
Proof.
  unfold round.
  pose proof (Qfloor_le x) as Hlo. pose proof (Qlt_floor x) as Hhi.
  rewrite inject_Z_plus in Hhi. change (inject_Z 1) with 1%Q in Hhi.
  apply Qabs_Qle_condition.
  destruct (Qcompare (x - inject_Z (Qfloor x)) (1 # 2)) eqn:Hc.
  - apply Qeq_alt in Hc.
    destruct (Z.even (Qfloor x)); rewrite ?inject_Z_plus;
      change (inject_Z 1) with 1%Q; split; lra.
  - apply Qlt_alt in Hc. split; lra.
  - apply Qgt_alt in Hc. rewrite inject_Z_plus.
    change (inject_Z 1) with 1%Q. split; lra.
Qed.

Lemma round_int v : round (inject_Z v) = v.
Proof.
  unfold round. rewrite Qfloor_Z.
  assert ((inject_Z v - inject_Z v ?= 1 # 2)%Q = Lt) as ->; [|reflexivity].
  rewrite <- Qlt_alt. lra.
Qed.

Lemma round_proper x y : (x == y)%Q -> round x = round y.
Proof.
  intros H. unfold round. rewrite (Qfloor_comp _ _ H).
  assert ((x - inject_Z (Qfloor y) ?= 1 # 2)%Q
          = (y - inject_Z (Qfloor y) ?= 1 # 2)%Q) as ->; [|reflexivity].
  now rewrite H.
Qed.

Lemma AVG_mean vs : vs <> [] -> (AVG vs == mean vs)%Q.
Proof.
  intros Hne. unfold AVG, mean. rewrite Qmake_Qdiv.
  rewrite <- (Znat.positive_nat_Z (Pos.of_nat (length vs))).
  rewrite Nat2Pos.id; [reflexivity|].
  destruct vs; [congruence | discriminate].
Qed.

End Rounding.

(** Prefixes of a text given by its parts. *)
Lemma substring_append (a b : string) (n : nat) :
  substring 0 (String.length a + n) (a ++ b)%string
  = (a ++ substring 0 n b)%string.
Proof. induction a as [|c a IH]; simpl; [reflexivity | now rewrite IH]. Qed.

Lemma substring_nothing (a : string) : substring 0 0 a = "".
Proof. now destruct a. Qed.

Lemma append_empty (a : string) : (a ++ "")%string = a.
Proof. induction a as [|c a IH]; simpl; [reflexivity | now rewrite IH]. Qed.

Lemma string_append_assoc (a b c : string) :
  ((a ++ b) ++ c)%string = (a ++ (b ++ c))%string.
Proof. induction a as [|x a IH]; simpl; [reflexivity | now rewrite IH]. Qed.

Section HistoryShape.
Import History.

(** The keys of a well-formed timestamp. *)
Lemma strftime_day_text date hh mm ss :
  String.length date = 10%nat ->
  strftime_day (timestamp_text date hh mm ss) = date.
Proof.
  intros Hdate. unfold strftime_day, timestamp_text.
  replace 10%nat with (String.length date + 0)%nat by lia.
  now rewrite substring_append, substring_nothing, append_empty.
Qed.

Lemma strftime_hour_text date hh mm ss :
  String.length date = 10%nat -> String.length hh = 2%nat ->
  strftime_hour (timestamp_text date hh mm ss)
  = (date ++ " " ++ hh ++ ":00")%string.
Proof.
  intros Hdate Hhh. unfold strftime_hour, timestamp_text.
  replace 13%nat with (String.length date + 3)%nat by lia.
  rewrite substring_append. cbn [append substring].
  replace 2%nat with (String.length hh + 0)%nat by lia.
  rewrite substring_append, substring_nothing, append_empty.
  now rewrite string_append_assoc.
Qed.

Lemma strftime_minute_text date hh mm ss :
  String.length date = 10%nat -> String.length hh = 2%nat ->
  String.length mm = 2%nat ->
  strftime_minute (timestamp_text date hh mm ss)
  = (date ++ " " ++ hh ++ ":" ++ mm)%string.
Proof.
  intros Hdate Hhh Hmm. unfold strftime_minute, timestamp_text.
  replace 16%nat with (String.length date + 6)%nat by lia.
  rewrite substring_append. cbn [append substring]. do 2 f_equal.
  replace 5%nat with (String.length hh + 3)%nat by lia.
  rewrite substring_append. cbn [append substring]. do 2 f_equal.
  replace 2%nat with (String.length mm + 0)%nat by lia.
  now rewrite substring_append, substring_nothing, append_empty.
Qed.

Lemma fits_int64_range n : fits_int64 n = true <-> - 2 ^ 63 <= n <= 2 ^ 63 - 1.
Proof.
  unfold fits_int64, min_int64, max_int64.
  rewrite andb_true_iff, !Z.leb_le. reflexivity.
Qed.

Lemma get_history_overflow period limit rows :
  fits_int64 limit = false ->
  get_history period limit rows = Raise OverflowError.
Proof. intros H. unfold get_history, execute. now rewrite H. Qed.

Lemma get_history_grouped period f limit rows :
  bucket_of period = Some f ->
  fits_int64 limit = true ->
  get_history period limit rows
  = Ok (map (bucket_point f rows) (rev (sql_limit limit (bucket_keys f rows)))).
Proof.
  intros Hf Hfit.
  assert (forall g, map (fun row => mkPoint (fst row) (round (snd row)))
                        (rev (select_buckets g limit rows))
                    = map (bucket_point g rows) (rev (sql_limit limit (bucket_keys g rows)))) as Hg.
  { intros g. unfold select_buckets, bucket_keys, sql_limit.
    destruct (limit <? 0); rewrite ?firstn_map, <- map_rev, map_map; reflexivity. }
  unfold bucket_of in Hf. unfold get_history, execute. rewrite Hfit.
  destruct (String.eqb period "minute"); [injection Hf as <-; f_equal; apply Hg|].
  destruct (String.eqb period "hour"); [injection Hf as <-; f_equal; apply Hg|].
  destruct (String.eqb period "day"); [injection Hf as <-; f_equal; apply Hg|].
  discriminate.
Qed.

Lemma get_history_ungrouped period limit rows :
  bucket_of period = None ->
  fits_int64 limit = true ->
  get_history period limit rows
  = Ok (map raw_point (rev (sql_limit limit (order_by_timestamp_desc rows)))).
Proof.
  intros Hf Hfit. unfold bucket_of in Hf. unfold get_history, execute.
  rewrite Hfit.
  destruct (String.eqb period "minute"); [discriminate|].
  destruct (String.eqb period "hour"); [discriminate|].
  destruct (String.eqb period "day"); [discriminate|].
  f_equal. unfold select_raw, sql_limit, raw_point.
  destruct (limit <? 0); rewrite ?firstn_map, <- map_rev, map_map;
    apply map_ext; intros r; simpl; now rewrite round_int.
Qed.

Lemma bucket_of_unknown period :
  period <> "minute" -> period <> "hour" -> period <> "day" ->
  bucket_of period = None.
Proof.
  intros H1 H2 H3. unfold bucket_of.
  apply String.eqb_neq in H1, H2, H3. now rewrite H1, H2, H3.
Qed.

Lemma distinct_desc_length ks : (length (distinct_desc ks) <= length ks)%nat.
Proof.
  assert (forall k l, (length (insert_desc k l) <= S (length l))%nat) as Hins.
  { intros k l. induction l as [|x l IH]; simpl; [lia|].
    destruct (text_compare k x); simpl; lia. }
  unfold distinct_desc. induction ks as [|k ks IH]; simpl; [lia|].
  specialize (Hins k (fold_right insert_desc [] ks)). lia.
Qed.

Lemma bucket_keys_In f rows k :
  In k (bucket_keys f rows) <-> exists r, In r rows /\ f (timestamp r) = k.
Proof.
  unfold bucket_keys. rewrite distinct_desc_In, in_map_iff.
  split; intros (r & H1 & H2); exists r; auto.
Qed.

Lemma group_values_nonempty f rows r :
  In r rows -> group_values f (f (timestamp r)) rows <> [].
Proof.
  intros Hr. unfold group_values. intros Hnil.
  apply map_eq_nil in Hnil.
  assert (In r (List.filter (fun r' => String.eqb (f (timestamp r')) (f (timestamp r))) rows)) as Hin.
  { apply filter_In. split; [assumption | apply String.eqb_refl]. }
  rewrite Hnil in Hin. contradiction.
Qed.

End HistoryShape.

(** * The claims *)

Local Open Scope list_scope.

Lemma decode_range data v :
  Payload.decode data = Ok v ->
  0 <= v <= 65535 /\ (Payload.flag_bit0 data = Some false -> v <= 255).
Proof.
  destruct data as [|flag rest]; [discriminate|].
  rewrite decode_cons. unfold Payload.flag_bit0.
  destruct (Z.testbit (Payload.int_of_byte flag) 0).
  - unfold Payload.unpack_from_H. simpl.
    destruct rest as [|lo [|hi rest]]; try discriminate.
    intros [= <-]. rewrite little_endian_16.
    pose proof (int_of_byte_range lo). pose proof (int_of_byte_range hi).
    split; [lia | discriminate].
  - unfold Payload.getitem. simpl.
    destruct rest as [|b rest]; [discriminate|].
    intros [= <-]. pose proof (int_of_byte_range b). split; [lia | intros _; lia].
Qed.

(** C2: with flag bit 0 clear and at least two bytes the decoder returns
    byte 1, a value in 0..255; with flag bit 0 set and at least three bytes
    it returns the unsigned 16-bit little-endian value of bytes 1 and 2. *)
Theorem decode_by_flag_width (data : list byte) :
  (Payload.flag_bit0 data = Some false -> (2 <= length data)%nat ->
   exists b, nth_error data 1 = Some b /\
             Payload.decode data = Ok (Payload.int_of_byte b) /\
             0 <= Payload.int_of_byte b <= 255) /\
  (Payload.flag_bit0 data = Some true -> (3 <= length data)%nat ->
   exists lo hi, nth_error data 1 = Some lo /\ nth_error data 2 = Some hi /\
                 Payload.decode data
                 = Ok (Payload.int_of_byte lo + 256 * Payload.int_of_byte hi) /\
                 0 <= Payload.int_of_byte lo + 256 * Payload.int_of_byte hi <= 65535).
Proof.
  destruct data as [|flag rest].
  - split; discriminate.
  - rewrite decode_cons. unfold Payload.flag_bit0.
    destruct (Z.testbit (Payload.int_of_byte flag) 0);
      split; intros Hbit Hlen; try discriminate.
    + destruct rest as [|lo [|hi rest]]; try (simpl in Hlen; lia).
      exists lo, hi. unfold Payload.unpack_from_H. simpl.
      rewrite little_endian_16.
      pose proof (int_of_byte_range lo). pose proof (int_of_byte_range hi).
      repeat split; try reflexivity; lia.
    + destruct rest as [|b rest]; [simpl in Hlen; lia|].
      exists b. repeat split; try reflexivity; apply int_of_byte_range.
Qed.

Lemma decode_by_flag_width_witness :
  Payload.decode [x00; x48] = Ok 72 /\ Payload.decode [x01; x2c; x01] = Ok 300.
Proof.
  split.
  - destruct (decode_by_flag_width [x00; x48]) as [H _].
    destruct (H eq_refl ltac:(simpl; lia)) as (b & Hb & Hd & _).
    injection Hb as <-. exact Hd.
  - destruct (decode_by_flag_width [x01; x2c; x01]) as [_ H].
    destruct (H eq_refl ltac:(simpl; lia)) as (lo & hi & Hlo & Hhi & Hd & _).
    injection Hlo as <-. injection Hhi as <-. exact Hd.
Defined.

(** C3, as the code has it: a payload too short for the width its flag
    selects makes the decoding raise ([IndexError] for the 8-bit form and
    the empty payload, [struct.error] for the 16-bit form); the handler
    neither catches nor logs it, the exception leaves the handler and
    nothing has changed: no cache update, no insert, no broadcast, and the
    session stays as it was. *)
Theorem underlength_payload_raises (E : env) (data : list byte) (s : state) :
  Payload.underlength data ->
  exists e, (e = IndexError \/ e = StructError) /\
            Payload.decode data = Raise e /\
            heart_rate_notification_handler E data s = (Raise e, s).
Proof.
  intros Hshort.
  assert (exists e, (e = IndexError \/ e = StructError) /\
                    Payload.decode data = Raise e) as (e & He & Hd).
  { destruct data as [|flag rest].
    - exists IndexError. split; [now left | reflexivity].
    - unfold Payload.underlength, Payload.flag_bit0 in Hshort.
      rewrite decode_cons.
      destruct (Z.testbit (Payload.int_of_byte flag) 0).
      + exists StructError. split; [now right|].
        destruct rest as [|lo [|hi rest]]; try reflexivity. simpl in Hshort. lia.
      + exists IndexError. split; [now left|].
        destruct rest as [|b rest]; [reflexivity | simpl in Hshort; lia]. }
  exists e. repeat split; try assumption. now apply handler_raises.
Qed.

Lemma underlength_payload_raises_witness :
  heart_rate_notification_handler (quiet now0) [x01; x48] monitoring
  = (Raise StructError, monitoring).
Proof.
  destruct (underlength_payload_raises (quiet now0) [x01; x48] monitoring)
    as (e & _ & Hd & Hh).
  - vm_compute. lia.
  - rewrite Hh. f_equal.
    change (Payload.decode [x01; x48]) with (@Raise Z StructError) in Hd.
    now injection Hd as <-.
Defined.

(** C3 as stated fails: a one-byte payload in the 8-bit form leaves the
    handler as an [IndexError] and no log record is written. *)
Lemma malformed_sample_is_not_logged :
  heart_rate_notification_handler (quiet now0) [x00] monitoring
  = (Raise IndexError, monitoring) /\
  List.filter is_log (trace monitoring) = [].
Proof. split; reflexivity. Qed.

(** C5, as the code has it: for a notification that decodes to [v] the
    cache is set to [v] first; then, if the global refers to a client, the
    insert is attempted, once, and a failure of it is logged and not
    retried; then the heart-rate event is broadcast, also after a failed
    insert. If the global is [None] the insert is skipped and the event is
    broadcast all the same. *)
Theorem heart_rate_event_follows_cache_and_store
    (E : env) (data : list byte) (v : Z) (s : state) :
  Payload.decode data = Ok v ->
  (forall c cl, current_client s = Some c -> clients s !! c = Some cl ->
     exists s',
       heart_rate_notification_handler E data s = (Ok tt, s') /\
       current_hr s' = v /\
       measurements s' = persisted E v (address cl) (measurements s) /\
       trace s' = trace s ++ [ASetHr v; ALog (Info_heart_rate v)]
                          ++ persistence E v (address cl)
                          ++ emission E (Msg_heart_rate v) s) /\
  (current_client s = None ->
     exists s',
       heart_rate_notification_handler E data s = (Ok tt, s') /\
       current_hr s' = v /\
       measurements s' = measurements s /\
       trace s' = trace s ++ [ASetHr v; ALog (Info_heart_rate v)]
                          ++ emission E (Msg_heart_rate v) s).
Proof.
  intros Hd. split.
  - intros c cl Hc Hcl. rewrite (handler_run E data v s Hd). cbv zeta.
    rewrite Hc, Hcl. eexists. split; [reflexivity|]. simpl.
    repeat split. now rewrite <- !app_assoc.
  - intros Hc. rewrite (handler_run E data v s Hd). cbv zeta.
    rewrite Hc. eexists. split; [reflexivity|]. simpl.
    repeat split. now rewrite <- !app_assoc.
Qed.

Lemma heart_rate_event_follows_cache_and_store_witness :
  exists s',
    heart_rate_notification_handler disk_full [x00; x48] monitoring = (Ok tt, s') /\
    current_hr s' = 72 /\
    measurements s' = [] /\
    trace s' = trace monitoring
               ++ [ASetHr 72; ALog (Info_heart_rate 72); AInsert 72 monitor;
                   ALog (Error_database (Exception "database or disk is full"));
                   AEmit (Msg_heart_rate 72);
                   ASend 0%nat (Msg_heart_rate 72); ASend 1%nat (Msg_heart_rate 72)].
Proof.
  destruct (heart_rate_event_follows_cache_and_store
              disk_full [x00; x48] 72 monitoring eq_refl) as [H _].
  exact (H 0%nat (session monitor) eq_refl eq_refl).
Defined.

(** C5 as stated fails: the notification loop of the stand-in client
    does not look at [is_connected] again after its sleep, so a viewer's
    disconnect during that sleep is followed by one more notification. It
    finds the global [None] and is broadcast without any insert having
    been attempted. *)
Lemma heart_rate_event_without_store :
  Loop.run (quiet now0) [0; 0; 2; 1]%nat
    [Loop.Connect_called monitor; Loop.Disconnect_called] (initial [0; 1]%nat)
  = ([Loop.Finished (Ok tt); Loop.Finished (Ok tt); Loop.Notify_sleeping 0], idle) /\
  current_client idle = None /\
  Loop.run (quiet now0) [2]%nat
    [Loop.Finished (Ok tt); Loop.Finished (Ok tt); Loop.Notify_sleeping 0] idle
  = ([Loop.Finished (Ok tt); Loop.Finished (Ok tt); Loop.Finished (Ok tt)],
     snd (heart_rate_notification_handler (quiet now0) [x00; x48] idle)) /\
  heart_rate_notification_handler (quiet now0) [x00; x48] idle
  = (Ok tt,
     add_trace [ASetHr 72; ALog (Info_heart_rate 72); AEmit (Msg_heart_rate 72);
                ASend 0%nat (Msg_heart_rate 72); ASend 1%nat (Msg_heart_rate 72)]
               (set_current_hr 72 idle)) /\
  measurements (snd (heart_rate_notification_handler (quiet now0) [x00; x48] idle)) = [].
Proof. repeat apply conj; vm_compute; reflexivity. Qed.

(** C6, as the code has it: a broadcast pass returns normally whatever the
    other tasks do to the list while it awaits its sends, the list changes
    only by what they do, and the rest of the state is untouched. When no
    viewer registers or unregisters during the pass, it attempts a send to
    every viewer of [active_connections], in order; a send that raises is
    followed by an error log record and the pass goes on; the list of
    viewers is untouched. *)
Theorem broadcast_reaches_every_viewer (E : env) (m : message) :
  (forall during s,
     exists s' k,
       broadcast_among E m during s = (Ok tt, s') /\
       active_connections s'
       = changed (concat (firstn k during)) (active_connections s) /\
       clients s' = clients s /\ current_client s' = current_client s /\
       current_hr s' = current_hr s /\ measurements s' = measurements s) /\
  (forall during s,
     undisturbed during ->
     exists s',
       broadcast_among E m during s = (Ok tt, s') /\
       active_connections s' = active_connections s /\
       trace s' = trace s ++ AEmit m :: deliveries E m (active_connections s) /\
       (forall ws, In ws (active_connections s) -> In (ASend ws m) (trace s')) /\
       (forall ws e, In ws (active_connections s) -> send_json_raises E ws = Some e ->
                     In (ALog (Error_broadcast e)) (trace s')) /\
       clients s' = clients s /\ current_client s' = current_client s /\
       current_hr s' = current_hr s /\ measurements s' = measurements s).
Proof.
  split.
  - intros during s. unfold broadcast_among, bind, emit, modify.
    destruct (broadcast_loop_returns E m during 0 (record (AEmit m) s))
      as (s' & k & Hrun & Hact & Hc & Hcc & Hhr & Hrows).
    exists s', k. now rewrite Hrun.
  - intros during s Hq.
    exists (add_trace (emission E m s) s).
    rewrite broadcast_among_undisturbed by assumption. rewrite broadcast_run.
    assert (forall ws, In ws (active_connections s) ->
              In (ASend ws m) (deliveries E m (active_connections s)) /\
              forall e, send_json_raises E ws = Some e ->
                        In (ALog (Error_broadcast e)) (deliveries E m (active_connections s)))
      as Hall.
    { intros ws Hws. unfold deliveries. split.
      - apply in_flat_map. exists ws. split; [assumption | now left].
      - intros e He. apply in_flat_map. exists ws. split; [assumption|].
        rewrite He. right. now left. }
    simpl. unfold emission. repeat split; try reflexivity.
    + intros ws Hws. apply in_or_app. right. right. now apply (Hall ws Hws).
    + intros ws e Hws He. apply in_or_app. right. right.
      now apply (proj2 (Hall ws Hws)).
Qed.

Lemma broadcast_reaches_every_viewer_witness :
  exists s',
    broadcast_among second_fails (Msg_heart_rate 72) [[]; []; []]
      (initial [0; 1; 2]%nat) = (Ok tt, s') /\
    active_connections s' = [0; 1; 2]%nat /\
    trace s' = [AEmit (Msg_heart_rate 72);
                ASend 0%nat (Msg_heart_rate 72);
                ASend 1%nat (Msg_heart_rate 72);
                ALog (Error_broadcast (Exception "socket closed"));
                ASend 2%nat (Msg_heart_rate 72)].
Proof.
  destruct (proj2 (broadcast_reaches_every_viewer second_fails (Msg_heart_rate 72))
              [[]; []; []] (initial [0; 1; 2]%nat))
    as (s' & Hrun & Hact & Htr & _).
  - repeat constructor.
  - exists s'. repeat split; assumption.
Defined.

(** C6 as stated fails: of three registered viewers the first leaves
    while the send to it is awaited; the list shifts under the loop's
    index, and the second viewer, registered throughout, is sent nothing. *)
Lemma broadcast_skips_a_viewer_when_one_leaves :
  broadcast_among (quiet now0) (Msg_heart_rate 72) [[Unregisters 0%nat]]
    (initial [0; 1; 2]%nat)
  = (Ok tt,
     mkState [] None 0 [1; 2]%nat []
       [AEmit (Msg_heart_rate 72);
        ASend 0%nat (Msg_heart_rate 72);
        ASend 2%nat (Msg_heart_rate 72)]).
Proof. vm_compute. reflexivity. Qed.

(** C9, as the code has it: the value stored for an accepted payload is
    the decoded one, between 0 and 65535; it is at most 255 when the flag
    selects the 8-bit form. *)
Theorem stored_value_is_at_most_16_bit
    (E : env) (data : list byte) (s s' : state) :
  heart_rate_notification_handler E data s = (Ok tt, s') ->
  exists v,
    Payload.decode data = Ok v /\
    0 <= v <= 65535 /\
    (Payload.flag_bit0 data = Some false -> v <= 255) /\
    (measurements s' = measurements s \/
     exists addr,
       measurements s'
       = measurements s
         ++ [mkRow (next_row_id (measurements s)) (CURRENT_TIMESTAMP E) v addr]).
Proof.
  intros Hrun. destruct (Payload.decode data) as [v|e] eqn:Hd.
  - exists v. destruct (decode_range data v Hd) as [Hv H8].
    repeat split; try assumption; try lia.
    rewrite (handler_run E data v s Hd) in Hrun. cbv zeta in Hrun.
    destruct (current_client s) as [c|].
    + destruct (clients s !! c) as [cl|]; [|discriminate].
      injection Hrun as <-. simpl. unfold persisted, insert_row.
      destruct (insert_raises E); [now left | right; now exists (address cl)].
    + injection Hrun as <-. now left.
  - rewrite (handler_raises E data e s Hd) in Hrun. discriminate.
Qed.

Lemma stored_value_is_at_most_16_bit_witness :
  exists v,
    Payload.decode [x01; x2c; x01] = Ok v /\
    0 <= v <= 65535 /\
    (Payload.flag_bit0 [x01; x2c; x01] = Some false -> v <= 255) /\
    (measurements (snd (heart_rate_notification_handler
                          (quiet now0) [x01; x2c; x01] monitoring))
     = measurements monitoring \/
     exists addr,
       measurements (snd (heart_rate_notification_handler
                            (quiet now0) [x01; x2c; x01] monitoring))
       = measurements monitoring
         ++ [mkRow (next_row_id (measurements monitoring)) now0 v addr]).
Proof.
  exact (stored_value_is_at_most_16_bit
           (quiet now0) [x01; x2c; x01] monitoring
           (snd (heart_rate_notification_handler
                   (quiet now0) [x01; x2c; x01] monitoring))
           eq_refl).
Defined.

(** C9 as stated fails: the 16-bit payload 01 00 01 is accepted and the
    row written for it holds 256. *)
Lemma stored_value_above_255 :
  heart_rate_notification_handler (quiet now0) [x01; x00; x01] monitoring
  = (Ok tt,
     set_measurements [mkRow 1 now0 256 monitor]
       (add_trace [ASetHr 256; ALog (Info_heart_rate 256); AInsert 256 monitor;
                   AEmit (Msg_heart_rate 256);
                   ASend 0%nat (Msg_heart_rate 256); ASend 1%nat (Msg_heart_rate 256)]
                  (set_current_hr 256 monitoring))).
Proof. reflexivity. Qed.

(** C8: a [disconnect_ble] that returns leaves the global cleared; a
    second call changes nothing at all, so it emits nothing; the first one
    emitted "Disconnected" exactly once if a session was live and not at
    all otherwise, and the session it found live is no longer connected. *)
Theorem disconnect_ble_idempotent (E E' : env) (s s1 : state) :
  disconnect_ble E s = (Ok tt, s1) ->
  current_client s1 = None /\
  disconnect_ble E' s1 = (Ok tt, s1) /\
  emitted (Msg_status "Disconnected") (trace s1)
  = (emitted (Msg_status "Disconnected") (trace s)
     + match live s with Some _ => 1 | None => 0 end)%nat /\
  (forall c, live s = Some c ->
     exists cl, clients s !! c = Some cl /\ clients s1 !! c = Some (turn_off cl)).
Proof.
  intros Hrun. apply disconnect_ble_cases in Hrun. subst s1.
  split; [reflexivity|]. split; [now apply disconnect_ble_idle|].
  unfold released. destruct (live s) as [c|] eqn:Hlive; simpl.
  - split.
    + rewrite !emitted_app, emitted_emission. unfold emitted at 2. simpl. lia.
    + intros c' [= <-]. unfold live in Hlive.
      destruct (current_client s) as [c0|]; [|discriminate].
      destruct (clients s !! c0) as [cl|] eqn:Hcl; [|discriminate].
      destruct (is_connected cl); [|discriminate].
      injection Hlive as ->. exists cl. split; [assumption|].
      now rewrite list_lookup_alter_eq, Hcl.
  - split; [lia | discriminate].
Qed.

Lemma disconnect_ble_idempotent_witness :
  current_client idle = None /\
  disconnect_ble (quiet now0) idle = (Ok tt, idle) /\
  emitted (Msg_status "Disconnected") (trace idle) = 1%nat /\
  (forall c, live monitoring = Some c ->
     exists cl, clients monitoring !! c = Some cl /\
                clients idle !! c = Some (turn_off cl)).
Proof.
  exact (disconnect_ble_idempotent (quiet now0) (quiet now0) monitoring idle eq_refl).
Defined.

(** One task run from the call to the return is [connect_ble]. *)
Lemma loop_runs_connect_ble E addr s :
  snd (Loop.run E [0; 0]%nat [Loop.Connect_called addr] s) = snd (connect_ble E addr s) /\
  fst (Loop.run E [0; 0]%nat [Loop.Connect_called addr] s) !! 0%nat
  = Some (Loop.Finished (fst (connect_ble E addr s))).
Proof.
  unfold Loop.run, Loop.step, connect_ble, bind. simpl.
  destruct (connect_ble_begin E addr s) as [[self|e] s1]; simpl; [|now split].
  destruct (connect_ble_resume E self addr s1). now split.
Qed.




Section HistoryClaims.
Import History.

(** C4, with the limit kept within what SQLite takes: for a period among
    minute, hour and day and a limit from 1 to 2^63 - 1, the query replies,
    and the reply lists buckets in strictly ascending order of their key;
    each is the truncated timestamp of some row and carries the mean of
    all rows of that bucket, rounded to a nearest integer; at most [limit]
    buckets are listed, and a bucket that is left out is older than every
    listed one, which happens only when [limit] buckets are listed. These
    three periods are the ones that select a granularity, and the key of a
    timestamp [date hh:mm:ss] is [date hh:mm] for minute, [date hh:00] for
    hour and [date] for day. In particular, 60, 70 and 80 appended within
    one minute, newer than all that is stored, give the single bucket 70
    for [limit = 1]. *)
Theorem get_history_aggregates :
  (forall period f limit rows,
     bucket_of period = Some f -> 0 < limit <= 2 ^ 63 - 1 ->
     exists reply,
       get_history period limit rows = Ok reply /\
       StronglySorted text_lt (map point_timestamp reply) /\
       (forall p, In p reply ->
          (exists r, In r rows /\ f (timestamp r) = point_timestamp p) /\
          point_value p = round (mean (group_values f (point_timestamp p) rows)) /\
          (Qabs (mean (group_values f (point_timestamp p) rows)
                 - inject_Z (point_value p)) <= 1 # 2)%Q) /\
       (length reply <= Z.to_nat limit)%nat /\
       (forall r, In r rows ->
          In (f (timestamp r)) (map point_timestamp reply) \/
          (length reply = Z.to_nat limit /\
           forall p, In p reply ->
                     text_lt (f (timestamp r)) (point_timestamp p)))) /\
  (forall period,
     (exists f, bucket_of period = Some f) <->
     period = "minute" \/ period = "hour" \/ period = "day") /\
  (forall date hh mm ss,
     String.length date = 10%nat -> String.length hh = 2%nat ->
     String.length mm = 2%nat ->
     option_map (fun f => f (timestamp_text date hh mm ss)) (bucket_of "minute")
     = Some (date ++ " " ++ hh ++ ":" ++ mm)%string /\
     option_map (fun f => f (timestamp_text date hh mm ss)) (bucket_of "hour")
     = Some (date ++ " " ++ hh ++ ":00")%string /\
     option_map (fun f => f (timestamp_text date hh mm ss)) (bucket_of "day")
     = Some date) /\
  (forall rows b t1 t2 t3 a1 a2 a3,
     Forall (fun r => text_lt (strftime_minute (timestamp r)) b) rows ->
     strftime_minute t1 = b -> strftime_minute t2 = b -> strftime_minute t3 = b ->
     get_history "minute" 1
       (insert_row t3 80 a3 (insert_row t2 70 a2 (insert_row t1 60 a1 rows)))
     = Ok [mkPoint b 70]).
Proof.
  split; [|split; [|split]].
  - intros period f limit rows Hf Hlimit.
    rewrite (get_history_grouped period f limit rows Hf)
      by (apply fits_int64_range; lia).
    eexists. split; [reflexivity|].
    rewrite sql_limit_firstn by lia.
    set (n := Z.to_nat limit). set (keys := bucket_keys f rows).
    assert (map point_timestamp (map (bucket_point f rows) (rev (firstn n keys)))
            = rev (firstn n keys)) as Hkeys.
    { rewrite map_map. simpl. apply map_id. }
    pose proof (distinct_desc_sorted (map (fun r => f (timestamp r)) rows)) as Hsorted.
    fold (bucket_keys f rows) in Hsorted. fold keys in Hsorted.
    unfold descending in Hsorted.
    rewrite Hkeys, length_map, length_rev.
    split; [|split; [|split]].
    + apply (sorted_rev _ _ (sorted_firstn _ n keys Hsorted)).
    + intros p Hp.
      apply in_map_iff in Hp as (k & <- & Hk).
      unfold bucket_point; cbn [point_timestamp point_value].
      apply in_rev, firstn_In in Hk.
      pose proof Hk as Hrow. apply bucket_keys_In in Hrow as (r & Hr & <-).
      split; [now exists r|]. split.
      * apply round_proper, AVG_mean. now apply group_values_nonempty.
      * pose proof (AVG_mean _ (group_values_nonempty f rows r Hr)) as Hm.
        eapply Qle_trans;
          [|apply (round_nearest (AVG (group_values f (f (timestamp r)) rows)))].
        apply Qle_lteq. right. apply Qabs_wd. unfold Qminus.
        apply Qplus_comp; [symmetry; exact Hm | reflexivity].
    + apply firstn_le_length.
    + intros r Hr.
      assert (In (f (timestamp r)) keys) as Hk
        by (apply bucket_keys_In; now exists r).
      rewrite <- (firstn_skipn n keys) in Hk.
      apply in_app_or in Hk as [Hk|Hk]; [left; now apply in_rev in Hk|].
      right. split.
      * apply firstn_length_le.
        destruct (Nat.le_gt_cases n (length keys)) as [Hle|Hgt]; [assumption|].
        rewrite skipn_all2 in Hk by lia. contradiction.
      * intros p Hp. apply in_map_iff in Hp as (k & <- & Hin). simpl.
        apply in_rev in Hin.
        apply (sorted_split _ n keys k (f (timestamp r)) Hsorted Hin Hk).
  - intros period. unfold bucket_of. split.
    + intros [f Hf].
      destruct (String.eqb_spec period "minute"); [auto|].
      destruct (String.eqb_spec period "hour"); [auto|].
      destruct (String.eqb_spec period "day"); [auto|]. discriminate.
    + intros [-> | [-> | ->]]; simpl; eauto.
  - intros date hh mm ss Hdate Hhh Hmm.
    cbn [bucket_of String.eqb Ascii.eqb Bool.eqb option_map].
    rewrite strftime_minute_text, strftime_hour_text, strftime_day_text
      by assumption.
    repeat split.
  - intros rows b t1 t2 t3 a1 a2 a3 Hold H1 H2 H3.
    rewrite (get_history_grouped "minute" strftime_minute) by reflexivity.
    f_equal.
    unfold insert_row, bucket_keys.
    rewrite !map_app. simpl. rewrite H1, H2, H3.
    rewrite <- !app_assoc. simpl.
    assert (insert_desc b [b] = [b]) as Hbb
      by (simpl; now rewrite text_compare_refl).
    unfold distinct_desc. rewrite fold_right_app. simpl.
    rewrite ?text_compare_refl, ?Hbb.
    rewrite distinct_desc_newest
      by (rewrite List.Forall_map; exact Hold).
    unfold sql_limit. simpl. unfold bucket_point. f_equal. f_equal.
    unfold group_values. rewrite !List.filter_app, !map_app. simpl.
    rewrite H1, H2, H3, String.eqb_refl. simpl.
    assert (List.filter (fun r => String.eqb (strftime_minute (timestamp r)) b) rows = [])
      as ->.
    { induction Hold as [|r rows Hr _ IH]; simpl; [reflexivity|].
      destruct (String.eqb_spec (strftime_minute (timestamp r)) b) as [Heq|_];
        [|assumption].
      rewrite Heq in Hr. now apply text_lt_irrefl in Hr. }
    reflexivity.
Qed.

Lemma get_history_aggregates_witness :
  (exists reply,
     get_history "hour" 2
       [mkRow 1 "2024-05-01 09:59:58" 64 monitor;
        mkRow 2 "2024-05-01 10:15:02" 60 monitor;
        mkRow 3 "2024-05-01 11:00:00" 91 monitor]
     = Ok reply /\
     StronglySorted text_lt (map point_timestamp reply) /\
     (length reply <= 2)%nat) /\
  option_map (fun f => f (timestamp_text "2024-05-01" "10" "15" "02"))
             (bucket_of "hour")
  = Some "2024-05-01 10:00" /\
  get_history "minute" 1
    (insert_row "2024-05-01 10:15:50" 80 monitor
       (insert_row "2024-05-01 10:15:31" 70 monitor
          (insert_row "2024-05-01 10:15:02" 60 monitor
             [mkRow 1 "2024-05-01 10:14:59" 90 monitor])))
  = Ok [mkPoint "2024-05-01 10:15" 70].
Proof.
  destruct get_history_aggregates as (Hreply & _ & Hkey & Hsample).
  split; [|split].
  - destruct (Hreply "hour" strftime_hour 2
                [mkRow 1 "2024-05-01 09:59:58" 64 monitor;
                 mkRow 2 "2024-05-01 10:15:02" 60 monitor;
                 mkRow 3 "2024-05-01 11:00:00" 91 monitor])
      as (reply & Hrun & Hsorted & _ & Hlen & _); [reflexivity | lia |].
    exists reply. repeat split; assumption.
  - apply (Hkey "2024-05-01" "10" "15" "02"); reflexivity.
  - apply Hsample; [|reflexivity..]. repeat constructor.
Defined.

(** C4 as stated fails: a positive limit above 2^63 - 1 does not fit an
    SQLite INTEGER, and the query raises instead of replying. *)
Lemma limit_beyond_int64_raises :
  get_history "minute" (2 ^ 63) [mkRow 1 now0 72 monitor]
  = Raise OverflowError /\
  get_history "hour" (2 ^ 63) [mkRow 1 now0 72 monitor]
  = Raise OverflowError /\
  get_history "day" (2 ^ 63) [mkRow 1 now0 72 monitor]
  = Raise OverflowError.
Proof. repeat apply conj; vm_compute; reflexivity. Qed.

(** C7, as the code has it: a limit of zero gives the empty reply for
    every period. A negative limit is handed to [LIMIT] as it is: down to
    -2^63 it sets no bound, so the query replies with what any limit at
    least as large as the table gives, which is not empty unless the table
    is; below -2^63 it does not fit an SQLite INTEGER and the query raises
    [OverflowError]. *)
Theorem limit_zero_is_empty_negative_is_unbounded
    (period : string) (limit : Z) (rows : list measurement) :
  limit <= 0 ->
  if limit =? 0 then get_history period limit rows = Ok []
  else if limit <? - 2 ^ 63 then
    get_history period limit rows = Raise OverflowError
  else
    exists reply,
      get_history period limit rows = Ok reply /\
      (rows <> [] -> reply <> []) /\
      (forall n, Z.of_nat (length rows) <= n <= 2 ^ 63 - 1 ->
                 get_history period n rows = Ok reply).
Proof.
  intros Hlimit.
  destruct (Z.eqb_spec limit 0) as [->|Hne].
  { destruct (bucket_of period) as [f|] eqn:Hf.
    - now rewrite (get_history_grouped period f) by (assumption || reflexivity).
    - now rewrite (get_history_ungrouped period) by (assumption || reflexivity). }
  destruct (Z.ltb_spec limit (- 2 ^ 63)) as [Hlow|Hlow].
  { apply get_history_overflow.
    destruct (fits_int64 limit) eqn:Hfit; [|reflexivity].
    apply fits_int64_range in Hfit. lia. }
  assert (fits_int64 limit = true) as Hfit by (apply fits_int64_range; lia).
  assert (forall A (l : list A) n,
            (length l <= length rows)%nat -> Z.of_nat (length rows) <= n ->
            sql_limit n l = sql_limit limit l) as Hl.
  { intros A l n Hlen Hn. unfold sql_limit.
    destruct (Z.ltb_spec limit 0); [|lia].
    destruct (Z.ltb_spec n 0); [lia|].
    apply firstn_all2. lia. }
  assert (forall A B (g : A -> B) (l : list A), l <> [] -> map g (rev l) <> []) as Hne'.
  { intros A B g l Hl' Hnil. apply map_eq_nil in Hnil.
    apply (f_equal (@rev A)) in Hnil. rewrite rev_involutive in Hnil.
    contradiction. }
  destruct (bucket_of period) as [f|] eqn:Hf.
  - rewrite (get_history_grouped period f) by assumption.
    eexists. split; [reflexivity|]. split.
    + intros Hrows. unfold sql_limit.
      destruct (Z.ltb_spec limit 0); [|lia]. apply Hne'.
      destruct rows as [|r rows']; [congruence|].
      intros Hnil.
      assert (In (f (timestamp r)) (bucket_keys f (r :: rows'))) as Hin
        by (apply bucket_keys_In; exists r; split; [now left | reflexivity]).
      rewrite Hnil in Hin. contradiction.
    + intros n Hn.
      rewrite (get_history_grouped period f) by (assumption || apply fits_int64_range; lia).
      rewrite (Hl _ _ n); [reflexivity | | lia].
      unfold bucket_keys.
      etransitivity; [apply distinct_desc_length | now rewrite length_map].
  - rewrite (get_history_ungrouped period) by assumption.
    eexists. split; [reflexivity|]. split.
    + intros Hrows. unfold sql_limit.
      destruct (Z.ltb_spec limit 0); [|lia]. apply Hne'.
      intros Hnil. apply Hrows.
      apply Permutation_nil. rewrite <- Hnil.
      symmetry. apply order_by_timestamp_desc_perm.
    + intros n Hn.
      rewrite (get_history_ungrouped period) by (assumption || apply fits_int64_range; lia).
      rewrite (Hl _ _ n); [reflexivity | | lia].
      now rewrite <- (Permutation_length (order_by_timestamp_desc_perm rows)).
Qed.

Lemma limit_zero_is_empty_negative_is_unbounded_witness :
  exists reply,
    get_history "hour" (-5)
      [mkRow 1 now0 72 monitor; mkRow 2 "2024-05-01 11:00:01" 80 monitor]
    = Ok reply /\
    (([mkRow 1 now0 72 monitor; mkRow 2 "2024-05-01 11:00:01" 80 monitor]
        : list measurement) <> [] -> reply <> []) /\
    (forall n, 2 <= n <= 2 ^ 63 - 1 ->
       get_history "hour" n
         [mkRow 1 now0 72 monitor; mkRow 2 "2024-05-01 11:00:01" 80 monitor]
       = Ok reply).
Proof.
  apply (limit_zero_is_empty_negative_is_unbounded
           "hour" (-5) [mkRow 1 now0 72 monitor; mkRow 2 "2024-05-01 11:00:01" 80 monitor]).
  lia.
Defined.

(** C7 as stated fails: with a negative limit the reply is not empty, and
    with one below -2^63 there is no reply. *)
Lemma negative_limit_returns_rows :
  get_history "minute" (-1) [mkRow 1 now0 72 monitor]
  = Ok [mkPoint "2024-05-01 10:15" 72] /\
  get_history "raw" (-1) [mkRow 1 now0 72 monitor]
  = Ok [mkPoint now0 72] /\
  get_history "minute" (- 2 ^ 63 - 1) [mkRow 1 now0 72 monitor]
  = Raise OverflowError.
Proof. repeat apply conj; vm_compute; reflexivity. Qed.

(** C10: a period other than minute, hour and day, known or not, is
    answered by the raw query, exactly as "raw" is, whatever the limit;
    for a limit from 0 to 2^63 - 1, the largest SQLite takes, the query
    replies with measurements as they are stored, oldest first, [limit]
    of them or all if there are fewer, and none that is left out is more
    recent than a listed one. *)
Theorem unknown_period_is_raw (period : string) (limit : Z) (rows : list measurement) :
  period <> "minute" -> period <> "hour" -> period <> "day" ->
  get_history period limit rows = get_history "raw" limit rows /\
  (0 <= limit <= 2 ^ 63 - 1 ->
   exists kept dropped,
     Permutation rows (dropped ++ kept) /\
     get_history period limit rows = Ok (map raw_point kept) /\
     StronglySorted (fun a b => text_le (timestamp a) (timestamp b)) kept /\
     length kept = Nat.min (Z.to_nat limit) (length rows) /\
     (forall d k, In d dropped -> In k kept -> text_le (timestamp d) (timestamp k))).
Proof.
  intros Hm Hh Hd.
  pose proof (bucket_of_unknown period Hm Hh Hd) as Hf.
  split.
  { destruct (fits_int64 limit) eqn:Hfit.
    - rewrite (get_history_ungrouped period limit rows Hf Hfit).
      now rewrite (get_history_ungrouped "raw" limit rows) by (assumption || reflexivity).
    - now rewrite !get_history_overflow by assumption. }
  intros Hlimit.
  rewrite (get_history_ungrouped period limit rows Hf)
    by (apply fits_int64_range; lia).
  rewrite sql_limit_firstn by lia.
  set (n := Z.to_nat limit). set (sorted := order_by_timestamp_desc rows).
  pose proof (order_by_timestamp_desc_perm rows) as Hperm.
  pose proof (order_by_timestamp_desc_sorted rows) as Hsorted.
  fold sorted in Hperm, Hsorted. unfold latest_first in Hsorted.
  exists (rev (firstn n sorted)), (skipn n sorted).
  split; [|split; [reflexivity|split; [|split]]].
  - rewrite Hperm, <- (firstn_skipn n sorted) at 1.
    rewrite Permutation_app_comm. apply Permutation_app_head, Permutation_rev.
  - apply (sorted_rev _ _ (sorted_firstn _ n sorted Hsorted)).
  - rewrite length_rev, length_firstn.
    now rewrite (Permutation_length Hperm).
  - intros d k Hdrop Hk. apply in_rev in Hk.
    apply (sorted_split _ n sorted k d Hsorted Hk Hdrop).
Qed.

Lemma unknown_period_is_raw_witness :
  get_history "weekly" 1 [mkRow 1 now0 72 monitor; mkRow 2 "2024-05-01 10:15:31" 75 monitor]
  = get_history "raw" 1 [mkRow 1 now0 72 monitor; mkRow 2 "2024-05-01 10:15:31" 75 monitor].
Proof.
  apply (unknown_period_is_raw
           "weekly" 1 [mkRow 1 now0 72 monitor; mkRow 2 "2024-05-01 10:15:31" 75 monitor]);
    discriminate.
Defined.

End HistoryClaims.

(** * Further properties of the code *)

(** ** The table *)

Lemma next_row_id_above rows :
  Forall (fun r => row_id r < next_row_id rows) rows.
Proof.
  unfold next_row_id. induction rows as [|r rows IH]; constructor; simpl.
  - lia.
  - eapply List.Forall_impl; [|exact IH]. simpl. intros a Ha. lia.
Qed.

Lemma insert_row_ids_increasing now v addr rows :
  ids_increasing rows -> ids_increasing (insert_row now v addr rows).
Proof.
  unfold ids_increasing, insert_row. intros H. rewrite map_app.
  apply sorted_app. repeat split; [assumption | repeat constructor |].
  intros a b Ha [<-|[]]. simpl.
  apply in_map_iff in Ha as (r & <- & Hr).
  pose proof (next_row_id_above rows) as Hall.
  rewrite List.Forall_forall in Hall. now apply Hall.
Qed.

(** X1: [save_heart_rate] always returns normally, touches nothing but the
    table and the trace, and never alters or drops a stored row: it adds
    nothing when the insert raises, and otherwise exactly one row with the
    given value and address, the current timestamp and an id above every
    id in the table. *)
Theorem save_heart_rate_appends (E : env) (v : Z) (addr : string) (s : state) :
  exists s' new,
    save_heart_rate E v addr s = (Ok tt, s') /\
    clients s' = clients s /\ current_client s' = current_client s /\
    current_hr s' = current_hr s /\
    active_connections s' = active_connections s /\
    measurements s' = (measurements s ++ new)%list /\
    match insert_raises E with
    | Some _ => new = []
    | None =>
        exists id, new = [mkRow id (CURRENT_TIMESTAMP E) v addr] /\
                   Forall (fun r => row_id r < id) (measurements s)
    end.
Proof.
  rewrite save_heart_rate_run. unfold persisted, insert_row.
  destruct (insert_raises E) as [e|].
  - eexists. exists []. simpl. rewrite app_nil_r. repeat split.
  - eexists. eexists. simpl. repeat split.
    eexists. split; [reflexivity | apply next_row_id_above].
Qed.

Lemma handler_table E data s r s' :
  heart_rate_notification_handler E data s = (r, s') ->
  measurements s' = measurements s \/
  exists v addr,
    measurements s' = insert_row (CURRENT_TIMESTAMP E) v addr (measurements s).
Proof.
  destruct (Payload.decode data) as [v|e] eqn:Hd.
  - rewrite (handler_run E data v s Hd). cbv zeta.
    destruct (current_client s) as [c|].
    + destruct (clients s !! c) as [cl|]; intros [= <- <-]; simpl.
      * unfold persisted. destruct (insert_raises E); [now left|].
        right. now exists v, (address cl).
      * now left.
    + intros [= <- <-]. now left.
  - rewrite (handler_raises E data e s Hd). intros [= <- <-]. now left.
Qed.

(** X2: whatever the notifications are and whether or not the run ends in
    an exception, the rows stored before are still there, unchanged and in
    place, and the ids of the table still grow from row to row (so no id
    is used twice). *)
Theorem deliver_is_append_only
    (items : list (env * list byte)) (s s' : state) (r : result unit) :
  ids_increasing (measurements s) ->
  deliver items s = (r, s') ->
  ids_increasing (measurements s') /\
  List.NoDup (map row_id (measurements s')) /\
  exists new, measurements s' = (measurements s ++ new)%list.
Proof.
  intros Hinc Hrun.
  assert (ids_increasing (measurements s') /\
          exists new, measurements s' = (measurements s ++ new)%list) as [H1 H2].
  { revert s Hinc Hrun. induction items as [|[E data] items IH]; intros s Hinc Hrun.
    - injection Hrun as <- <-. split; [assumption|]. exists []. now rewrite app_nil_r.
    - simpl in Hrun. unfold bind in Hrun.
      destruct (heart_rate_notification_handler E data s) as [[[]|e] s1] eqn:Hh.
      + destruct (handler_table _ _ _ _ _ Hh) as [Heq|(v & addr & Heq)].
        * rewrite <- Heq in *. now apply IH.
        * destruct (IH s1) as (Hi & new & Hnew); try assumption.
          { rewrite Heq. now apply insert_row_ids_increasing. }
          split; [assumption|]. rewrite Hnew, Heq. unfold insert_row.
          rewrite <- app_assoc. now eexists.
      + injection Hrun as <- <-.
        destruct (handler_table _ _ _ _ _ Hh) as [Heq|(v & addr & Heq)]; rewrite Heq.
        * split; [assumption|]. exists []. now rewrite app_nil_r.
        * split; [now apply insert_row_ids_increasing|]. unfold insert_row. now eexists. }
  repeat split; try assumption.
  unfold ids_increasing in H1. clear -H1.
  induction H1 as [|a l Hs IH Hall]; constructor; [|assumption].
  intros Hin. rewrite List.Forall_forall in Hall. specialize (Hall a Hin). lia.
Qed.

Lemma deliver_is_append_only_witness :
  ids_increasing [mkRow 1 now0 256 monitor; mkRow 2 now0 72 monitor] /\
  List.NoDup (map row_id [mkRow 1 now0 256 monitor; mkRow 2 now0 72 monitor]) /\
  exists new, [mkRow 1 now0 256 monitor; mkRow 2 now0 72 monitor] = ([] ++ new)%list.
Proof.
  apply (deliver_is_append_only
           [(quiet now0, [x01; x00; x01]); (quiet now0, [x00; x48]); (quiet now0, [x00])]
           monitoring
           (snd (deliver [(quiet now0, [x01; x00; x01]); (quiet now0, [x00; x48]);
                          (quiet now0, [x00])] monitoring))
           (Raise IndexError)).
  - constructor.
  - vm_compute. reflexivity.
Defined.

(** ** A run of notifications *)

Lemma heart_rates_app l1 l2 : heart_rates (l1 ++ l2) = (heart_rates l1 ++ heart_rates l2)%list.
Proof. unfold heart_rates. apply flat_map_app. Qed.

Lemma heart_rates_deliveries E m connections : heart_rates (deliveries E m connections) = [].
Proof.
  unfold heart_rates, deliveries. induction connections as [|ws l IH]; simpl; [reflexivity|].
  destruct (send_json_raises E ws); simpl; assumption.
Qed.

Lemma handler_stores E data v c cl s :
  Payload.decode data = Ok v ->
  current_client s = Some c -> clients s !! c = Some cl ->
  insert_raises E = None ->
  exists s',
    heart_rate_notification_handler E data s = (Ok tt, s') /\
    clients s' = clients s /\ current_client s' = current_client s /\
    current_hr s' = v /\
    measurements s'
    = insert_row (CURRENT_TIMESTAMP E) v (address cl) (measurements s) /\
    heart_rates (trace s') = (heart_rates (trace s) ++ [v])%list.
Proof.
  intros Hd Hc Hcl Hdb. rewrite (handler_run E data v s Hd). cbv zeta.
  rewrite Hc, Hcl. eexists. split; [reflexivity|].
  unfold persisted, persistence. rewrite Hdb.
  do 4 (split; [cbn; congruence|]).
  cbn [trace add_trace set_measurements set_current_hr]. unfold emission.
  rewrite !heart_rates_app.
  change (AEmit (Msg_heart_rate v) :: ?l) with (([AEmit (Msg_heart_rate v)] ++ l)%list).
  rewrite heart_rates_app, heart_rates_deliveries. simpl.
  now rewrite !app_nil_r.
Qed.

(** X3: while a client is referred to and the inserts succeed, a run of
    notifications that all decode stores one row per notification, in the
    order of arrival, each with its decoded value, the timestamp of its
    moment and the address of the client; the viewers are sent the same
    values in the same order, and the cache ends up with the last one. *)
Theorem deliver_stores_in_arrival_order
    (items : list (env * list byte)) (vs : list Z)
    (c : client_id) (cl : BleakClient) (s : state) :
  current_client s = Some c -> clients s !! c = Some cl ->
  Forall2 (fun it v => insert_raises (fst it) = None /\
                       Payload.decode (snd it) = Ok v) items vs ->
  exists s' new,
    deliver items s = (Ok tt, s') /\
    measurements s' = (measurements s ++ new)%list /\
    map value new = vs /\
    map timestamp new = map (fun it => CURRENT_TIMESTAMP (fst it)) items /\
    Forall (fun r => device_address r = address cl) new /\
    heart_rates (trace s') = (heart_rates (trace s) ++ vs)%list /\
    current_hr s' = List.last vs (current_hr s).
Proof.
  intros Hc Hcl Hall. revert s Hc Hcl.
  induction Hall as [|[E data] v items vs [Hdb Hd] _ IH]; intros s Hc Hcl.
  - exists s, []. simpl. rewrite !app_nil_r. repeat split. constructor.
  - simpl in Hdb, Hd.
    destruct (handler_stores E data v c cl s Hd Hc Hcl Hdb)
      as (s1 & Hrun & Hcls & Hcur & Hhr & Hrows & Hsent).
    destruct (IH s1) as (s' & new & Hrun' & Hrows' & Hv & Ht & Ha & Hsent' & Hhr');
      [congruence | congruence |].
    exists s', (mkRow (next_row_id (measurements s)) (CURRENT_TIMESTAMP E) v (address cl)
                :: new).
    simpl. unfold bind. rewrite Hrun, Hrun'.
    split; [reflexivity|].
    split; [rewrite Hrows', Hrows; unfold insert_row; now rewrite <- app_assoc|].
    split; [now rewrite Hv|]. split; [now rewrite Ht|].
    split; [now constructor|].
    split; [rewrite Hsent', Hsent; now rewrite <- app_assoc|].
    rewrite Hhr', Hhr. destruct vs as [|w vs']; [reflexivity|].
    change (List.last (v :: w :: vs') (current_hr s))
      with (List.last (w :: vs') (current_hr s)).
    clear. revert w. induction vs' as [|u vs' IHl]; intros w; [reflexivity|].
    change (List.last (w :: u :: vs') ?d) with (List.last (u :: vs') d).
    apply IHl.
Qed.

Lemma deliver_stores_in_arrival_order_witness :
  exists s' new,
    deliver [(quiet now0, [x00; x48]); (quiet "2024-05-01 10:15:31", [x01; x2c; x01])]
            monitoring = (Ok tt, s') /\
    measurements s' = (measurements monitoring ++ new)%list /\
    map value new = [72; 300] /\
    map timestamp new = [now0; "2024-05-01 10:15:31"] /\
    Forall (fun r => device_address r = monitor) new /\
    heart_rates (trace s') = (heart_rates (trace monitoring) ++ [72; 300])%list /\
    current_hr s' = 300.
Proof.
  apply (deliver_stores_in_arrival_order
           [(quiet now0, [x00; x48]); (quiet "2024-05-01 10:15:31", [x01; x2c; x01])]
           [72; 300] 0%nat (session monitor) monitoring).
  - reflexivity.
  - reflexivity.
  - repeat constructor.
Defined.

Section RoundTrip.
Import History.

Lemma insert_row_desc_newest r l :
  Forall (fun x => text_lt (timestamp x) (timestamp r)) l ->
  insert_row_desc r l = r :: l.
Proof.
  destruct 1 as [|x l Hx _]; simpl; [reflexivity|].
  apply text_compare_gt in Hx. now rewrite Hx.
Qed.

(** X4: a measurement stored by the handler at a time later than every
    stored timestamp is what the raw query with limit 1 returns: its
    timestamp and its value, unrounded. *)
Theorem stored_measurement_is_latest_raw_point
    (E : env) (data : list byte) (v : Z) (c : client_id) (cl : BleakClient)
    (s : state) :
  Payload.decode data = Ok v ->
  current_client s = Some c -> clients s !! c = Some cl ->
  insert_raises E = None ->
  Forall (fun r => text_lt (timestamp r) (CURRENT_TIMESTAMP E)) (measurements s) ->
  get_history "raw" 1
    (measurements (snd (heart_rate_notification_handler E data s)))
  = Ok [mkPoint (CURRENT_TIMESTAMP E) v].
Proof.
  intros Hd Hc Hcl Hdb Hold.
  destruct (handler_stores E data v c cl s Hd Hc Hcl Hdb)
    as (s' & Hrun & _ & _ & _ & Hrows & _).
  rewrite Hrun. cbn [snd]. rewrite Hrows.
  rewrite (get_history_ungrouped "raw") by reflexivity. f_equal.
  unfold insert_row, order_by_timestamp_desc.
  rewrite rev_app_distr. cbn [rev app fold_right].
  fold (order_by_timestamp_desc (measurements s)).
  rewrite insert_row_desc_newest.
  - reflexivity.
  - cbn [timestamp].
    rewrite <- (order_by_timestamp_desc_perm (measurements s)). exact Hold.
Qed.

Lemma stored_measurement_is_latest_raw_point_witness :
  get_history "raw" 1
    (measurements (snd (heart_rate_notification_handler
                          (quiet now0) [x00; x48] monitoring)))
  = Ok [mkPoint now0 72].
Proof.
  apply (stored_measurement_is_latest_raw_point
           (quiet now0) [x00; x48] 72 0%nat (session monitor) monitoring);
    try reflexivity.
  constructor.
Defined.

End RoundTrip.

(** ** More on the history queries *)

Section HistoryMore.
Import History.

Lemma rev_firstn_suffix {A} (n m : nat) (l : list A) :
  (n <= m)%nat ->
  exists older, rev (firstn m l) = (older ++ rev (firstn n l))%list.
Proof.
  intros Hnm. exists (rev (firstn (m - length (firstn n l)) (skipn n l))).
  rewrite <- rev_app_distr. f_equal.
  rewrite <- (firstn_skipn n l) at 1.
  rewrite firstn_app, firstn_firstn. now rewrite Nat.min_r by lia.
Qed.

Lemma sql_limit_In {A} limit (l : list A) x : In x (sql_limit limit l) -> In x l.
Proof.
  unfold sql_limit. destruct (limit <? 0); [trivial | apply firstn_In].
Qed.

(** X5: asking for more history only adds older points in front: for
    limits [0 <= n <= m] that SQLite takes, [m <= 2^63 - 1], and any
    period, both queries reply, and the reply for [n] is the tail end of
    the reply for [m]. *)
Theorem larger_limit_prepends_older_points
    (period : string) (n m : Z) (rows : list measurement) :
  0 <= n <= m -> m <= 2 ^ 63 - 1 ->
  exists older recent,
    get_history period n rows = Ok recent /\
    get_history period m rows = Ok (older ++ recent)%list.
Proof.
  intros [Hn Hm] Hfit.
  assert (fits_int64 n = true /\ fits_int64 m = true) as [Hfn Hfm]
    by (split; apply fits_int64_range; lia).
  assert (forall A B (g : A -> B) (l : list A),
            exists older,
              map g (rev (sql_limit m l)) = (older ++ map g (rev (sql_limit n l)))%list)
    as Hsuffix.
  { intros A B g l. rewrite !sql_limit_firstn by lia.
    destruct (rev_firstn_suffix (Z.to_nat n) (Z.to_nat m) l) as [older Hold]; [lia|].
    exists (map g older). now rewrite Hold, map_app. }
  destruct (bucket_of period) as [f|] eqn:Hf.
  - rewrite !(get_history_grouped period f) by assumption.
    destruct (Hsuffix _ _ (bucket_point f rows) (bucket_keys f rows)) as [older Hold].
    exists older. eexists. split; [reflexivity | now rewrite Hold].
  - rewrite !(get_history_ungrouped period) by assumption.
    destruct (Hsuffix _ _ raw_point (order_by_timestamp_desc rows)) as [older Hold].
    exists older. eexists. split; [reflexivity | now rewrite Hold].
Qed.

Lemma larger_limit_prepends_older_points_witness :
  exists older recent,
    get_history "minute" 1
      [mkRow 1 now0 72 monitor; mkRow 2 "2024-05-01 10:16:01" 80 monitor]
    = Ok recent /\
    get_history "minute" 2
      [mkRow 1 now0 72 monitor; mkRow 2 "2024-05-01 10:16:01" 80 monitor]
    = Ok (older ++ recent)%list.
Proof.
  apply (larger_limit_prepends_older_points "minute" 1 2); lia.
Defined.

Lemma round_between lo hi x :
  (inject_Z lo <= x)%Q -> (x <= inject_Z hi)%Q -> lo <= round x <= hi.
Proof.
  intros Hlo Hhi.
  pose proof (Qfloor_le x) as Hfl. pose proof (Qlt_floor x) as Hfu.
  assert (lo <= Qfloor x) as H1.
  { rewrite <- (Qfloor_Z lo). now apply Qfloor_resp_le. }
  assert (Qfloor x <= hi) as H2.
  { rewrite <- (Qfloor_Z hi). now apply Qfloor_resp_le. }
  assert ((0 < x - inject_Z (Qfloor x))%Q -> Qfloor x + 1 <= hi) as H3.
  { intros Hpos.
    assert (inject_Z (Qfloor x) < inject_Z hi)%Q as Hlt by lra.
    rewrite <- Zlt_Qlt in Hlt. lia. }
  unfold round.
  destruct (Qcompare (x - inject_Z (Qfloor x)) (1 # 2)) eqn:Hc.
  - apply Qeq_alt in Hc. destruct (Z.even (Qfloor x)); [lia|].
    split; [lia | apply H3; lra].
  - lia.
  - apply Qgt_alt in Hc. split; [lia | apply H3; lra].
Qed.

Lemma sum_between lo hi (vs : list Z) :
  Forall (fun v => lo <= v <= hi) vs ->
  Z.of_nat (length vs) * lo <= fold_right Z.add 0 vs <= Z.of_nat (length vs) * hi.
Proof.
  induction 1 as [|v vs Hv _ IH]; [simpl; lia|].
  cbn [length fold_right]. rewrite Nat2Z.inj_succ. lia.
Qed.

Lemma AVG_between lo hi (vs : list Z) :
  vs <> [] -> Forall (fun v => lo <= v <= hi) vs ->
  (inject_Z lo <= AVG vs)%Q /\ (AVG vs <= inject_Z hi)%Q.
Proof.
  intros Hne Hall. pose proof (sum_between lo hi vs Hall) as Hsum.
  assert (Z.pos (Pos.of_nat (length vs)) = Z.of_nat (length vs)) as Hlen.
  { rewrite <- (Znat.positive_nat_Z (Pos.of_nat (length vs))).
    rewrite Nat2Pos.id; [reflexivity|]. destruct vs; [congruence | discriminate]. }
  unfold AVG, Qle, inject_Z. cbn [Qnum Qden]. rewrite Hlen. lia.
Qed.

(** X6: the value reported for a bucket lies between the smallest and
    the largest reading of that bucket: whatever bounds hold for all rows
    of the bucket hold for the rounded mean, in every reply, whatever the
    limit. *)
Theorem bucket_value_within_its_readings
    (period : string) (f : string -> string) (limit : Z)
    (rows : list measurement) (lo hi : Z) (reply : list point) (p : point) :
  bucket_of period = Some f ->
  get_history period limit rows = Ok reply -> In p reply ->
  (forall r, In r rows -> f (timestamp r) = point_timestamp p -> lo <= value r <= hi) ->
  lo <= point_value p <= hi.
Proof.
  intros Hf Hreply Hp Hbound.
  destruct (fits_int64 limit) eqn:Hfit;
    [|rewrite get_history_overflow in Hreply by assumption; discriminate].
  rewrite (get_history_grouped period f limit rows Hf Hfit) in Hreply.
  injection Hreply as <-.
  apply in_map_iff in Hp as (k & <- & Hk).
  apply in_rev, sql_limit_In in Hk.
  unfold bucket_point in *. cbn [point_timestamp point_value] in *.
  apply bucket_keys_In in Hk as (r0 & Hr0 & <-).
  destruct (AVG_between lo hi (group_values f (f (timestamp r0)) rows)) as [H1 H2].
  - now apply group_values_nonempty.
  - unfold group_values. rewrite List.Forall_map, List.Forall_forall.
    intros r Hr. apply filter_In in Hr as [Hr Heq].
    apply String.eqb_eq in Heq. now apply Hbound.
  - now apply round_between.
Qed.

Lemma bucket_value_within_its_readings_witness :
  60 <= point_value (mkPoint "2024-05-01 10:15" 70) <= 80.
Proof.
  apply (bucket_value_within_its_readings
           "minute" strftime_minute 1
           [mkRow 1 "2024-05-01 10:15:02" 60 monitor;
            mkRow 2 "2024-05-01 10:15:31" 70 monitor;
            mkRow 3 "2024-05-01 10:15:50" 80 monitor]
           60 80 [mkPoint "2024-05-01 10:15" 70] (mkPoint "2024-05-01 10:15" 70)).
  - reflexivity.
  - vm_compute. reflexivity.
  - now left.
  - intros r [<-|[<-|[<-|[]]]] _; simpl; lia.
Defined.

End HistoryMore.

(** ** The session commands when the adapter fails *)

Lemma guard_released E s :
  (forall a, disconnect_raises E a = None) -> well_formed s ->
  disconnect_if_connected E (ret tt) s = (Ok tt, released s).
Proof.
  intros Hd Hwf. rewrite guard_run by assumption.
  unfold released. now destruct (live s).
Qed.


Lemma monitoring_well_formed : well_formed monitoring /\ single_session monitoring.
Proof.
  split.
  - intros c [= <-]. now exists (session monitor).
  - intros [|c] cl Hc Hon; [reflexivity|]. destruct c; discriminate.
Qed.


(** X8: when [connect()] succeeds and [start_notify] raises, the failure
    is reported like any other and the global is cleared, but the new
    client is never disconnected: it stays connected with no callback and
    nothing refers to it, so the guard of a later command will not find
    it. *)
Theorem failed_subscription_leaves_client_connected
    (E : env) (addr : string) (e : exn) (s : state) :
  connect_raises E addr = None ->
  start_notify_raises E addr = Some e ->
  (forall a, disconnect_raises E a = None) ->
  well_formed s -> single_session s ->
  exists s',
    connect_ble E addr s = (Ok tt, s') /\
    current_client s' = None /\
    live s' = None /\
    clients s' !! length (clients s) = Some (mkClient addr true []) /\
    active_sessions s' = [mkClient addr true []] /\
    trace s' = (trace (released s)
                ++ emission E (Msg_status ("Connecting to " ++ addr ++ "...")%string) s
                ++ [ABleConnect (length (clients s))]
                ++ emission E (Msg_status ("Connected to " ++ addr)%string) s
                ++ [AStartNotify (length (clients s)); ALog (Error_connection e)]
                ++ emission E (Msg_error (str e)) s)%list.
Proof.
  intros Hc Hn Hd Hwf Hone.
  destruct (released_fields s) as (Hlen & Hcur & Hhr & Hact & Hrows).
  unfold connect_ble, connect_ble_begin.
  unfold bind at 1. unfold bind at 1.
  rewrite guard_released by assumption.
  unfold bind at 1. rewrite broadcast_run.
  unfold connect_ble_resume, BleakClient_connect_resume, BleakClient_new,
    BleakClient_start_notify, update_client.
  run_monad.
  rewrite !list_lookup_middle by (rewrite ?length_alter; reflexivity).
  simpl. rewrite Hc. simpl. rewrite broadcast_run.
  cbn [current_client add_trace set_clients record set_current_client clients].
  rewrite list_lookup_alter_eq.
  rewrite !list_lookup_middle by (rewrite ?length_alter; reflexivity).
  cbn [fmap option_fmap option_map address]. rewrite Hn. rewrite broadcast_run.
  assert (alter (fun o => mkClient (address o) true (notify_callbacks o))
                (length (clients (released s)))
                (clients (released s) ++ [mkClient addr false []])
          = (clients (released s) ++ [mkClient addr true []])%list) as Halter.
  { rewrite <- (Nat.add_0_r (length (clients (released s)))).
    now rewrite alter_app_r. }
  eexists. split; [reflexivity|].
  split; [reflexivity|]. split; [reflexivity|].
  split.
  { simpl. rewrite Halter. apply list_lookup_middle. now rewrite Hlen. }
  split.
  { unfold active_sessions. simpl. rewrite Halter.
    rewrite List.filter_app, all_off_no_session by now apply released_all_off.
    reflexivity. }
  simpl. unfold emission. simpl. rewrite ?Hact, ?Hlen.
  repeat (rewrite <- app_assoc; simpl). reflexivity.
Qed.

Lemma failed_subscription_leaves_client_connected_witness :
  exists s',
    connect_ble no_heart_rate_service "AA:BB:CC:DD:EE:FF" monitoring = (Ok tt, s') /\
    current_client s' = None /\
    live s' = None /\
    clients s' !! 1%nat = Some (mkClient "AA:BB:CC:DD:EE:FF" true []) /\
    active_sessions s' = [mkClient "AA:BB:CC:DD:EE:FF" true []] /\
    trace s' = (trace (released monitoring)
                ++ emission no_heart_rate_service
                     (Msg_status "Connecting to AA:BB:CC:DD:EE:FF...") monitoring
                ++ [ABleConnect 1]
                ++ emission no_heart_rate_service
                     (Msg_status "Connected to AA:BB:CC:DD:EE:FF") monitoring
                ++ [AStartNotify 1;
                    ALog (Error_connection (Exception "Characteristic not found"))]
                ++ emission no_heart_rate_service
                     (Msg_error "Characteristic not found") monitoring)%list.
Proof.
  apply (failed_subscription_leaves_client_connected
           no_heart_rate_service "AA:BB:CC:DD:EE:FF"
           (Exception "Characteristic not found") monitoring).
  - reflexivity.
  - reflexivity.
  - reflexivity.
  - apply monitoring_well_formed.
  - apply monitoring_well_formed.
Defined.

(** X9: when the [disconnect()] of the live session raises, the exception
    leaves [connect_ble] and [disconnect_ble] alike: nothing is broadcast,
    the global is not cleared and the client stays marked connected. *)
Theorem failed_disconnect_propagates
    (E : env) (addr : string) (c : client_id) (cl : BleakClient) (e : exn) (s : state) :
  current_client s = Some c -> clients s !! c = Some cl ->
  is_connected cl = true ->
  disconnect_raises E (address cl) = Some e ->
  connect_ble E addr s = (Raise e, add_trace [ABleDisconnect c] s) /\
  disconnect_ble E s = (Raise e, add_trace [ABleDisconnect c] s).
Proof.
  intros Hc Hcl Hon He.
  assert (forall after, disconnect_if_connected E after s
                        = (Raise e, add_trace [ABleDisconnect c] s)) as Hguard.
  { intros after. unfold disconnect_if_connected, BleakClient_disconnect.
    run_monad. rewrite Hc. simpl. rewrite Hcl, Hon. simpl. rewrite Hcl, He.
    reflexivity. }
  split.
  - unfold connect_ble, connect_ble_begin. unfold bind at 1. unfold bind at 1.
    now rewrite Hguard.
  - unfold disconnect_ble. unfold bind at 1. now rewrite Hguard.
Qed.

Lemma failed_disconnect_propagates_witness :
  connect_ble link_stuck "AA:BB:CC:DD:EE:FF" monitoring
  = (Raise (Exception "Not connected"), add_trace [ABleDisconnect 0] monitoring) /\
  disconnect_ble link_stuck monitoring
  = (Raise (Exception "Not connected"), add_trace [ABleDisconnect 0] monitoring).
Proof.
  apply (failed_disconnect_propagates
           link_stuck "AA:BB:CC:DD:EE:FF" 0%nat (session monitor)
           (Exception "Not connected") monitoring); reflexivity.
Defined.

(** X10: in a state where only the client the global refers to can be
    connected, a [disconnect_ble] that returns leaves no client connected;
    the table and the viewers are untouched. *)
Theorem disconnect_ble_leaves_no_session (E : env) (s s1 : state) :
  single_session s ->
  disconnect_ble E s = (Ok tt, s1) ->
  active_sessions s1 = [] /\
  measurements s1 = measurements s /\
  active_connections s1 = active_connections s /\
  current_hr s1 = current_hr s.
Proof.
  intros Hone Hrun. apply disconnect_ble_cases in Hrun. subst s1.
  destruct (released_fields s) as (_ & _ & Hhr & Hact & Hrows).
  pose proof (released_all_off s Hone) as Hoff.
  unfold active_sessions. unfold released in *.
  destruct (live s); simpl in *; rewrite all_off_no_session by assumption;
    repeat split; assumption.
Qed.

Lemma disconnect_ble_leaves_no_session_witness :
  active_sessions idle = [] /\
  measurements idle = measurements monitoring /\
  active_connections idle = active_connections monitoring /\
  current_hr idle = current_hr monitoring.
Proof.
  apply (disconnect_ble_leaves_no_session (quiet now0) monitoring idle).
  - apply monitoring_well_formed.
  - reflexivity.
Defined.

(** ** The scan *)

Section ScanFacts.
Import Scan.

Lemma insert_entry_perm x l : Permutation (x :: l) (insert_entry x l).
Proof.
  induction l as [|y l IH]; simpl; [reflexivity|].
  destruct (entry_rssi x <? entry_rssi y); [|reflexivity].
  rewrite perm_swap. now constructor.
Qed.

Lemma insert_entry_sorted x l :
  StronglySorted (fun a b => entry_rssi b <= entry_rssi a) l ->
  StronglySorted (fun a b => entry_rssi b <= entry_rssi a) (insert_entry x l).
Proof.
  induction 1 as [|y l Hs IH Hall]; simpl; [repeat constructor|].
  destruct (Z.ltb_spec (entry_rssi x) (entry_rssi y)) as [Hlt|Hge].
  - constructor; [assumption|].
    rewrite List.Forall_forall in *. intros z Hz.
    apply (Permutation_in _ (Permutation_sym (insert_entry_perm x l))) in Hz.
    destruct Hz as [<-|Hz]; [lia | now apply Hall].
  - constructor; [now constructor|].
    constructor; [assumption|].
    rewrite List.Forall_forall in *. intros z Hz. specialize (Hall z Hz). lia.
Qed.

Lemma insert_entry_stable r x l :
  List.filter (fun en => entry_rssi en =? r) (insert_entry x l)
  = List.filter (fun en => entry_rssi en =? r) (x :: l).
Proof.
  induction l as [|y l IH]; [reflexivity|].
  cbn [insert_entry].
  destruct (Z.ltb_spec (entry_rssi x) (entry_rssi y)) as [Hlt|Hge]; [|reflexivity].
  cbn [List.filter] in *. rewrite IH.
  destruct (Z.eqb_spec (entry_rssi x) r), (Z.eqb_spec (entry_rssi y) r);
    try reflexivity; lia.
Qed.

Lemma sort_by_rssi_perm (l : list entry) : Permutation l (sort_by_rssi l).
Proof.
  unfold sort_by_rssi. induction l as [|x l IH]; simpl; [constructor|].
  rewrite <- insert_entry_perm. now constructor.
Qed.

(** X11: a scan that succeeds lists every discovered device exactly once,
    strongest signal first, and devices of equal strength in the order
    in which they were discovered. *)
Theorem scan_lists_all_devices_strongest_first (devices : list found) :
  Permutation (map entry_of devices) (scan_devices (Ok devices)) /\
  StronglySorted (fun a b => entry_rssi b <= entry_rssi a) (scan_devices (Ok devices)) /\
  forall r,
    List.filter (fun en => entry_rssi en =? r) (scan_devices (Ok devices))
    = List.filter (fun en => entry_rssi en =? r) (map entry_of devices).
Proof.
  unfold scan_devices. split; [apply sort_by_rssi_perm|].
  unfold sort_by_rssi.
  induction (map entry_of devices) as [|x l (IHs & IHf)]; simpl.
  - split; [constructor | reflexivity].
  - split.
    + now apply insert_entry_sorted.
    + intros r. rewrite insert_entry_stable. cbn [List.filter]. now rewrite IHf.
Qed.

Lemma scan_lists_all_devices_strongest_first_witness :
  scan_devices (Ok [mkFound (Some "A") "01" (-80); mkFound None "02" (-60);
                    mkFound (Some "") "03" (-90); mkFound (Some "D") "04" (-60)])
  = [mkEntry "Unknown" "02" (-60); mkEntry "D" "04" (-60);
     mkEntry "A" "01" (-80); mkEntry "Unknown" "03" (-90)] /\
  Permutation
    (map entry_of [mkFound (Some "A") "01" (-80); mkFound None "02" (-60);
                   mkFound (Some "") "03" (-90); mkFound (Some "D") "04" (-60)])
    (scan_devices (Ok [mkFound (Some "A") "01" (-80); mkFound None "02" (-60);
                       mkFound (Some "") "03" (-90); mkFound (Some "D") "04" (-60)])).
Proof.
  split; [reflexivity|].
  apply (scan_lists_all_devices_strongest_first
           [mkFound (Some "A") "01" (-80); mkFound None "02" (-60);
            mkFound (Some "") "03" (-90); mkFound (Some "D") "04" (-60)]).
Defined.

(** X12: whatever the discovery returned or raised, no listed entry has
    an empty name: a device without a name, or with an empty one, is
    listed as "Unknown", the others under their own name; and a discovery
    that raises gives the empty list. *)
Theorem scan_names_every_entry (discovered : result (list found)) :
  (forall en, In en (scan_devices discovered) ->
     entry_name en <> ""%string /\
     exists d devices, discovered = Ok devices /\ In d devices /\
       entry_address en = dev_address d /\ entry_rssi en = rssi d /\
       match name d with
       | Some n => if String.eqb n "" then entry_name en = "Unknown"%string
                   else entry_name en = n
       | None => entry_name en = "Unknown"%string
       end) /\
  (forall e, discovered = Raise e -> scan_devices discovered = []).
Proof.
  split.
  - intros en Hen. destruct discovered as [devices|e]; [|contradiction].
    unfold scan_devices in Hen.
    apply (Permutation_in _ (Permutation_sym (sort_by_rssi_perm _))) in Hen.
    apply in_map_iff in Hen as (d & <- & Hd).
    split.
    + unfold entry_of, display_name. cbn [entry_name].
      destruct (name d) as [[|ch n]|]; discriminate.
    + exists d, devices. repeat split; try assumption.
      unfold entry_of, display_name. cbn [entry_name].
      destruct (name d) as [[|ch n]|]; reflexivity.
  - intros e ->. reflexivity.
Qed.

End ScanFacts.

(** ** The viewers *)

Lemma list_remove_absent x l : ~ In x l -> list_remove x l = None.
Proof.
  induction l as [|y l IH]; intros Hx; simpl; [reflexivity|].
  destruct (Nat.eqb_spec y x) as [->|Hne]; [exfalso; apply Hx; now left|].
  rewrite IH; [reflexivity|]. intros H. apply Hx. now right.
Qed.

Lemma list_remove_snoc x l : ~ In x l -> list_remove x (l ++ [x]) = Some l.
Proof.
  induction l as [|y l IH]; intros Hx; simpl.
  - now rewrite Nat.eqb_refl.
  - destruct (Nat.eqb_spec y x) as [->|Hne]; [exfalso; apply Hx; now left|].
    rewrite IH; [reflexivity|]. intros H. apply Hx. now right.
Qed.

Lemma list_remove_present x l :
  In x l -> exists l', list_remove x l = Some l' /\ Permutation l (x :: l').
Proof.
  induction l as [|y l IH]; intros Hx; [contradiction|]. simpl.
  destruct (Nat.eqb_spec y x) as [->|Hne]; [now exists l|].
  destruct Hx as [Hx|Hx]; [congruence|].
  destruct (IH Hx) as (l' & -> & Hperm). exists (y :: l'). split; [reflexivity|].
  rewrite Hperm. apply perm_swap.
Qed.

Lemma set_active_connections_same s :
  set_active_connections (active_connections s) s = s.
Proof. now destruct s. Qed.

Lemma manager_round_trip ws s :
  ~ In ws (active_connections s) ->
  ConnectionManager_disconnect ws
    (set_active_connections (active_connections s ++ [ws]) s)
  = (Ok tt, s).
Proof.
  intros Hws. unfold ConnectionManager_disconnect. simpl.
  rewrite list_remove_snoc by assumption. f_equal.
  now destruct s.
Qed.

(** X13: registering a viewer that is not registered yet and then
    unregistering it gives back the state as it was; unregistering a
    viewer that is not registered raises and changes nothing. *)
Theorem manager_connect_disconnect (ws : WebSocket) (s : state) :
  ~ In ws (active_connections s) ->
  (ConnectionManager_connect ws;; ConnectionManager_disconnect ws) s = (Ok tt, s) /\
  ConnectionManager_disconnect ws s
  = (Raise (Exception "list.remove(x): x not in list"), s).
Proof.
  intros Hws. split.
  - unfold bind, ConnectionManager_connect, modify. now apply manager_round_trip.
  - unfold ConnectionManager_disconnect. now rewrite list_remove_absent.
Qed.

Lemma manager_connect_disconnect_witness :
  (ConnectionManager_connect 2%nat;; ConnectionManager_disconnect 2%nat) monitoring
  = (Ok tt, monitoring) /\
  ConnectionManager_disconnect 2%nat monitoring
  = (Raise (Exception "list.remove(x): x not in list"), monitoring).
Proof.
  apply (manager_connect_disconnect 2%nat monitoring).
  simpl. intros [H|[H|[]]]; discriminate.
Defined.

(** X14: once a registered viewer is unregistered, a broadcast pass
    during which no viewer registers or unregisters attempts no send to
    it, while every other registered viewer is still sent the message
    (the viewers being registered once each). *)
Theorem unregistered_viewer_gets_nothing
    (E : env) (m : message) (ws : WebSocket) (during : list (list change))
    (s : state) :
  List.NoDup (active_connections s) -> In ws (active_connections s) ->
  undisturbed during ->
  exists s1 s2,
    ConnectionManager_disconnect ws s = (Ok tt, s1) /\
    broadcast_among E m during s1 = (Ok tt, s2) /\
    trace s2 = (trace s ++ emission E m s1)%list /\
    ~ In (ASend ws m) (emission E m s1) /\
    forall ws', ws' <> ws -> In ws' (active_connections s) ->
                In (ASend ws' m) (emission E m s1).
Proof.
  intros Hnodup Hws Hq.
  destruct (list_remove_present ws _ Hws) as (l' & Hrem & Hperm).
  exists (set_active_connections l' s). eexists.
  split; [unfold ConnectionManager_disconnect; now rewrite Hrem|].
  rewrite broadcast_among_undisturbed by assumption.
  rewrite broadcast_run. split; [reflexivity|]. split; [reflexivity|].
  unfold emission. cbn [active_connections set_active_connections].
  assert (~ In ws l') as Hout.
  { apply (Permutation_NoDup Hperm) in Hnodup. now inversion Hnodup. }
  split.
  - intros [H|H]; [discriminate|].
    unfold deliveries in H. apply in_flat_map in H as (w & Hw & Hin).
    destruct Hin as [[= <-]|Hin]; [contradiction|].
    destruct (send_json_raises E w); [destruct Hin as [|[]]|contradiction]; discriminate.
  - intros ws' Hne Hin. right. unfold deliveries.
    apply in_flat_map. exists ws'. split; [|now left].
    apply (Permutation_in _ Hperm) in Hin. destruct Hin as [->|Hin]; [congruence | assumption].
Qed.

Lemma unregistered_viewer_gets_nothing_witness :
  exists s1 s2,
    ConnectionManager_disconnect 0%nat monitoring = (Ok tt, s1) /\
    broadcast_among (quiet now0) (Msg_heart_rate 72) [[]] s1 = (Ok tt, s2) /\
    trace s2 = (trace monitoring ++ emission (quiet now0) (Msg_heart_rate 72) s1)%list /\
    ~ In (ASend 0%nat (Msg_heart_rate 72)) (emission (quiet now0) (Msg_heart_rate 72) s1) /\
    forall ws', ws' <> 0%nat -> In ws' (active_connections monitoring) ->
                In (ASend ws' (Msg_heart_rate 72))
                   (emission (quiet now0) (Msg_heart_rate 72) s1).
Proof.
  apply (unregistered_viewer_gets_nothing
           (quiet now0) (Msg_heart_rate 72) 0%nat [[]] monitoring).
  - repeat constructor; simpl; intuition discriminate.
  - now left.
  - repeat constructor.
Defined.

(** ** One viewer's endpoint *)

Lemma dispatch_passed_over E action addr s :
  passed_over (Object action addr) -> dispatch E action addr s = (Ok tt, s).
Proof.
  intros [Hc Hd]. unfold dispatch. destruct action as [a|]; [|reflexivity].
  destruct (String.eqb_spec a "connect") as [->|_]; [congruence|].
  destruct (String.eqb_spec a "disconnect") as [->|_]; [congruence|].
  reflexivity.
Qed.

(** X15: messages whose action is neither "connect" nor "disconnect"
    (or is missing) are passed over: a viewer that sends only such
    messages and then leaves has changed nothing, the list of viewers
    included. *)
Theorem unknown_commands_change_nothing
    (E : env) (ws : WebSocket) (events : list received) (s : state) :
  ~ In ws (active_connections s) ->
  Forall passed_over events ->
  websocket_endpoint E ws (events ++ [WebSocketDisconnect]) s = (Ok Peer_closed, s).
Proof.
  intros Hws Hall. unfold websocket_endpoint, bind at 1, ConnectionManager_connect, modify.
  induction Hall as [|ev events Hev _ IH]; simpl.
  - unfold bind. rewrite manager_round_trip by assumption. reflexivity.
  - destruct ev as [action addr| | |]; try contradiction.
    now rewrite dispatch_passed_over.
Qed.

Lemma unknown_commands_change_nothing_witness :
  websocket_endpoint (quiet now0) 2%nat
    [Object (Some "reconnect") (Some monitor); Object None None; WebSocketDisconnect]
    monitoring
  = (Ok Peer_closed, monitoring).
Proof.
  apply (unknown_commands_change_nothing
           (quiet now0) 2%nat
           [Object (Some "reconnect") (Some monitor); Object None None] monitoring).
  - simpl. intros [H|[H|[]]]; discriminate.
  - repeat constructor; discriminate.
Defined.

Lemma guard_raises E after c cl e s :
  current_client s = Some c -> clients s !! c = Some cl ->
  is_connected cl = true -> disconnect_raises E (address cl) = Some e ->
  disconnect_if_connected E after s = (Raise e, add_trace [ABleDisconnect c] s).
Proof.
  intros Hc Hcl Hon He. unfold disconnect_if_connected, BleakClient_disconnect.
  run_monad. rewrite Hc. simpl. rewrite Hcl, Hon. simpl. now rewrite Hcl, He.
Qed.



(** X17: an adapter error that leaves a command ends the endpoint of the
    viewer that sent the command: when the [disconnect()] of the live
    session raises, under a "disconnect" as under a "connect" command,
    the viewer is taken off the list, the messages it sends afterwards
    are never read, and the session stays as it was. *)
Theorem adapter_error_ends_the_endpoint
    (E : env) (ws : WebSocket) (c : client_id) (cl : BleakClient) (e : exn)
    (addr : option string) (rest : list received) (s : state) :
  ~ In ws (active_connections s) ->
  current_client s = Some c -> clients s !! c = Some cl ->
  is_connected cl = true ->
  disconnect_raises E (address cl) = Some e ->
  websocket_endpoint E ws (Object (Some "disconnect") addr :: rest) s
  = (Ok (Error_logged e), add_trace [ABleDisconnect c] s) /\
  websocket_endpoint E ws (Object (Some "connect") addr :: rest) s
  = (Ok (Error_logged e), add_trace [ABleDisconnect c] s).
Proof.
  intros Hws Hc Hcl Hon He.
  set (s0 := set_active_connections (active_connections s ++ [ws]) s).
  assert (forall after, disconnect_if_connected E after s0
                        = (Raise e, add_trace [ABleDisconnect c] s0)) as Hguard.
  { intros after. now apply guard_raises with cl. }
  assert (ConnectionManager_disconnect ws (add_trace [ABleDisconnect c] s0)
          = (Ok tt, add_trace [ABleDisconnect c] s)) as Hback.
  { unfold ConnectionManager_disconnect.
    cbn [active_connections add_trace s0 set_active_connections].
    now rewrite list_remove_snoc. }
  split.
  - unfold websocket_endpoint, bind at 1, ConnectionManager_connect, modify. fold s0.
    cbn [receive_loop dispatch]. cbn [String.eqb Ascii.eqb Bool.eqb].
    unfold disconnect_ble, bind at 1. rewrite Hguard.
    unfold bind. now rewrite Hback.
  - unfold websocket_endpoint, bind at 1, ConnectionManager_connect, modify. fold s0.
    cbn [receive_loop dispatch]. cbn [String.eqb Ascii.eqb Bool.eqb].
    unfold connect_ble, connect_ble_begin, bind at 1. unfold bind at 1. rewrite Hguard.
    unfold bind. now rewrite Hback.
Qed.

Lemma adapter_error_ends_the_endpoint_witness :
  websocket_endpoint link_stuck 2%nat
    [Object (Some "disconnect") None; Object (Some "connect") (Some monitor)] monitoring
  = (Ok (Error_logged (Exception "Not connected")),
     add_trace [ABleDisconnect 0] monitoring) /\
  websocket_endpoint link_stuck 2%nat
    [Object (Some "connect") None; Object (Some "connect") (Some monitor)] monitoring
  = (Ok (Error_logged (Exception "Not connected")),
     add_trace [ABleDisconnect 0] monitoring).
Proof.
  apply (adapter_error_ends_the_endpoint
           link_stuck 2%nat 0%nat (session monitor) (Exception "Not connected")
           None [Object (Some "connect") (Some monitor)] monitoring);
    try reflexivity.
  simpl. intros [H|[H|[]]]; discriminate.
Defined.

(** X18: a message that is not a JSON object, or a failure of the
    transport while receiving, ends the endpoint as an error: the viewer
    is taken off the list, nothing else changes, and later messages are
    not read. *)
Theorem malformed_message_ends_the_endpoint
    (E : env) (ws : WebSocket) (e : exn) (rest : list received) (s : state) :
  ~ In ws (active_connections s) ->
  websocket_endpoint E ws (Not_an_object :: rest) s = (Ok (Error_logged AttributeError), s) /\
  websocket_endpoint E ws (Receive_raises e :: rest) s = (Ok (Error_logged e), s).
Proof.
  intros Hws.
  split; unfold websocket_endpoint, bind at 1, ConnectionManager_connect, modify;
    cbn [receive_loop]; unfold bind; now rewrite manager_round_trip.
Qed.

Lemma malformed_message_ends_the_endpoint_witness :
  websocket_endpoint (quiet now0) 2%nat
    [Not_an_object; Object (Some "disconnect") None] monitoring
  = (Ok (Error_logged AttributeError), monitoring) /\
  websocket_endpoint (quiet now0) 2%nat
    [Receive_raises (Exception "invalid JSON"); Object (Some "disconnect") None] monitoring
  = (Ok (Error_logged (Exception "invalid JSON")), monitoring).
Proof.
  apply (malformed_message_ends_the_endpoint
           (quiet now0) 2%nat (Exception "invalid JSON")
           [Object (Some "disconnect") None] monitoring).
  simpl. intros [H|[H|[]]]; discriminate.
Defined.

(** ** Commands in turn *)

Lemma connected_settled E addr s : single_session s -> settled (connected E addr s).
Proof.
  intros Hone. split; [apply connected_well_formed|].
  split; [now apply connected_single|].
  now rewrite connected_active.
Qed.

Lemma disconnected_settled E s s1 :
  single_session s -> disconnect_ble E s = (Ok tt, s1) -> settled s1.
Proof.
  intros Hone Hrun. apply disconnect_ble_cases in Hrun.
  pose proof (released_all_off s Hone) as Hoff.
  assert (Forall (fun cl => is_connected cl = false) (clients s1)) as Hoff1.
  { subst s1. unfold released in *. now destruct (live s). }
  assert (current_client s1 = None) as Hnone by now subst s1.
  split; [|split].
  - intros c Hc. congruence.
  - intros c cl Hc Hon. rewrite Forall_lookup in Hoff1.
    specialize (Hoff1 c cl Hc). congruence.
  - unfold active_sessions. rewrite all_off_no_session by assumption. simpl. lia.
Qed.

(** X19: with an adapter that succeeds, the commands of a viewer, run one
    after the other, keep at most one client connected, whatever the
    commands and addresses are and however many there are: from a settled
    state the loop reads all of them and ends in a settled state. *)
Theorem commands_in_turn_keep_one_session
    (E : env) (ws : WebSocket) (events : list received) (s : state) :
  adapter_succeeds E -> settled s -> Forall is_object events ->
  exists s',
    receive_loop E ws events s = (Ok Still_receiving, s') /\ settled s'.
Proof.
  intros HE Hs Hall. revert s Hs.
  induction Hall as [|ev events Hev _ IH]; intros s Hs.
  - exists s. now split.
  - destruct ev as [action addr| | |]; try contradiction.
    destruct Hs as (Hwf & Hone & Hlen).
    cbn [receive_loop]. unfold dispatch.
    destruct action as [a|]; [|apply IH; now repeat split].
    destruct (String.eqb a "connect").
    + rewrite (connect_ble_run E (py_str addr) s HE Hwf).
      apply IH. now apply connected_settled.
    + destruct (String.eqb a "disconnect"); [|apply IH; now repeat split].
      destruct (disconnect_ble E s) as [[[]|e] s1] eqn:Hrun.
      * apply IH. now apply (disconnected_settled E s).
      * exfalso. destruct HE as (_ & _ & Hd).
        unfold disconnect_ble, bind at 1 in Hrun.
        rewrite guard_run in Hrun by assumption.
        destruct (live s); [rewrite broadcast_run in Hrun|]; discriminate.
Qed.

Lemma commands_in_turn_keep_one_session_witness :
  exists s',
    receive_loop (quiet now0) 0%nat
      [Object (Some "connect") (Some "X"); Object (Some "connect") (Some "Y");
       Object (Some "disconnect") None; Object (Some "connect") None]
      (initial [0%nat])
    = (Ok Still_receiving, s') /\ settled s'.
Proof.
  apply (commands_in_turn_keep_one_session (quiet now0) 0%nat).
  - repeat split.
  - split; [|split].
    + intros c Hc. discriminate.
    + intros c cl Hc. destruct c; discriminate.
    + simpl. lia.
  - repeat constructor.
Defined.

(** ** The notification loop of the stand-in client *)

Lemma stand_in_payload_decodes b : Payload.decode [x00; b] = Ok (Payload.int_of_byte b).
Proof. rewrite decode_cons. reflexivity. Qed.

(** X20: a turn of the stand-in client's notification loop never ends in
    an exception: with the callback registered it hands the handler a
    payload that decodes to the number drawn, which becomes the cached
    value and the value broadcast; without the callback it does nothing.
    The client objects are not touched, and the loop sleeps again exactly
    when its client is still connected. *)
Theorem notification_turn
    (E : env) (self : client_id) (cl : BleakClient) (s : state) :
  clients s !! self = Some cl -> well_formed s ->
  exists s',
    Loop.step E (Loop.Notify_sleeping self) s
    = (if is_connected cl then Loop.Notify_sleeping self else Loop.Finished (Ok tt),
       [], s') /\
    clients s' = clients s /\
    if Loop.has_callback cl
    then current_hr s' = Payload.int_of_byte (randint E) /\
         heart_rates (trace s')
         = (heart_rates (trace s) ++ [Payload.int_of_byte (randint E)])%list
    else s' = s.
Proof.
  intros Hcl Hwf. unfold Loop.step. rewrite Hcl.
  destruct (Loop.has_callback cl).
  - rewrite (handler_run E _ _ s (stand_in_payload_decodes (randint E))). cbv zeta.
    assert (forall s0 : state,
              heart_rates (trace (add_trace (emission E (Msg_heart_rate
                             (Payload.int_of_byte (randint E))) s) s0))
              = (heart_rates (trace s0) ++ [Payload.int_of_byte (randint E)])%list)
      as Hsent.
    { intros s0. cbn [trace add_trace]. unfold emission.
      change (AEmit ?m :: ?l) with (([AEmit m] ++ l)%list).
      rewrite !heart_rates_app, heart_rates_deliveries. simpl.
      now rewrite ?app_nil_r. }
    destruct (current_client s) as [c|] eqn:Hc.
    + destruct (Hwf c Hc) as [cc Hcc]. rewrite Hcc.
      eexists. split.
      * unfold Loop.while_connected. cbn [clients add_trace set_measurements set_current_hr].
        rewrite Hcl. reflexivity.
      * split; [reflexivity|]. split; [reflexivity|].
        rewrite Hsent.
        cbn [trace add_trace set_measurements set_current_hr].
        rewrite !heart_rates_app. unfold persistence.
        destruct (insert_raises E); simpl; now rewrite !app_nil_r.
    + eexists. split.
      * unfold Loop.while_connected. cbn [clients add_trace set_measurements set_current_hr].
        rewrite Hcl. reflexivity.
      * split; [reflexivity|]. split; [reflexivity|].
        rewrite Hsent.
        cbn [trace add_trace set_current_hr].
        rewrite !heart_rates_app. simpl. now rewrite !app_nil_r.
  - exists s. unfold Loop.while_connected. rewrite Hcl. repeat split.
Qed.

Lemma notification_turn_witness :
  exists s',
    Loop.step (quiet now0) (Loop.Notify_sleeping 0) monitoring
    = (Loop.Notify_sleeping 0, [], s') /\
    clients s' = clients monitoring /\
    current_hr s' = 72 /\
    heart_rates (trace s') = (heart_rates (trace monitoring) ++ [72])%list.
Proof.
  destruct (notification_turn (quiet now0) 0%nat (session monitor) monitoring eq_refl)
    as (s' & Hstep & Hcl & Hhr & Hsent).
  - apply monitoring_well_formed.
  - exists s'. repeat split; assumption.
Defined.

(** ** Coarser periods *)

Section Granularity.
Import History.

Lemma substring_prefix (n m : nat) (s : string) :
  (n <= m)%nat -> substring 0 n (substring 0 m s) = substring 0 n s.
Proof.
  revert n m. induction s as [|ch s IH]; intros n m Hnm.
  - destruct n, m; reflexivity.
  - destruct n as [|n]; [now destruct m|].
    destruct m as [|m]; [lia|].
    simpl. f_equal. apply IH. lia.
Qed.

Lemma length_append (a c : string) :
  String.length (String.append a c) = (String.length a + String.length c)%nat.
Proof. induction a as [|x a IH]; simpl; [reflexivity | now rewrite IH]. Qed.

Lemma append_cancel_r (a b c : string) :
  String.append a c = String.append b c -> a = b.
Proof.
  intros H.
  assert (String.length a = String.length b) as Hlen.
  { apply (f_equal String.length) in H. rewrite !length_append in H. lia. }
  revert b H Hlen. induction a as [|x a IH]; intros [|y b] H Hlen;
    try discriminate; [reflexivity|].
  simpl in H. injection H as -> H. f_equal. apply IH; [assumption|].
  simpl in Hlen. lia.
Qed.

(** X21: the coarser periods merge the buckets of the finer ones and
    never split them: two timestamps with the same minute key have the
    same hour key, and two with the same hour key have the same day key. *)
Theorem coarser_periods_merge_buckets (t1 t2 : string) :
  (strftime_minute t1 = strftime_minute t2 -> strftime_hour t1 = strftime_hour t2) /\
  (strftime_hour t1 = strftime_hour t2 -> strftime_day t1 = strftime_day t2).
Proof.
  unfold strftime_minute, strftime_hour, strftime_day. split; intros H.
  - f_equal.
    rewrite <- (substring_prefix 13 16 t1), <- (substring_prefix 13 16 t2) by lia.
    now rewrite H.
  - apply append_cancel_r in H.
    rewrite <- (substring_prefix 10 13 t1), <- (substring_prefix 10 13 t2) by lia.
    now rewrite H.
Qed.

Lemma coarser_periods_merge_buckets_witness :
  strftime_hour "2024-05-01 10:15:02" = strftime_hour "2024-05-01 10:15:50" /\
  strftime_day "2024-05-01 10:15:02" = strftime_day "2024-05-01 10:59:59".
Proof.
  split.
  - apply (proj1 (coarser_periods_merge_buckets "2024-05-01 10:15:02" "2024-05-01 10:15:50")).
    reflexivity.
  - apply (proj2 (coarser_periods_merge_buckets "2024-05-01 10:15:02" "2024-05-01 10:59:59")).
    reflexivity.
Defined.

End Granularity.
